(** * ESP32 multi-camera WebSocket relay: model of ESP32_Server.ino

    A shallow embedding of the relay server in
    [src/ESP32_Server/ESP32_Server.ino]: the slot table of camera
    clients ([addCameraClient], [removeCameraClient]), the memory
    monitor ([monitorMemory]), the per-slot message pump
    ([handleWebSocketMessage]) and the scheduling pass ([loop]).

    Conventions.
    - [unsigned long] and [size_t] are 32 bits wide on the ESP32; they
      are integers in [Z] and the wrap-around of every subtraction is
      written out ([wrap32]).
    - Calls that read the environment ([millis()], [ESP.getFreeHeap()],
      [client.available()], [client.readBlocking()], [wsServer.poll()],
      [wsServer.accept()]) are explicit inputs of the functions.
    - Calls on [wsBrowser] are the only output towards the subscribers;
      a function returns the list of broadcasts it made, in send order.
    - The two statics of [monitorMemory] and the globals live in one
      record, [ServerState], which is passed explicitly. *)

From Stdlib Require Import ZArith Lia Bool Ascii String DecimalString
  DecimalPos.
From Stdlib.Strings Require Import Byte.
From stdpp Require Import base list.
From Equations Require Import Equations.

Set Warnings "-register-all".

Open Scope Z_scope.

(** ** Machine integers *)

Definition wrap32 (z : Z) : Z := z mod 2 ^ 32.

(** [int x = <uint32_t value>]: the two's complement reading. *)
Definition to_int (z : Z) : Z :=
  if wrap32 z <? 2 ^ 31 then wrap32 z else wrap32 z - 2 ^ 32.

(** ** System constants *)

Definition CLIENT_TIMEOUT : Z := 10000.
Definition MAX_CLIENTS : Z := 2.
Definition MAX_FRAME_SIZE : Z := 16384.
Definition CHUNK_SIZE : Z := 8192.

(** ** Arduino [String] *)

Definition dq : string := String "034"%char EmptyString.

(** A double-quoted word, as [\"word\"] in a C literal. *)
Definition quoted (s : string) : string := (dq ++ s ++ dq)%string.

(** [String(int)]: the decimal text of an integer. *)
Definition String_of_int (z : Z) : string :=
  NilZero.string_of_int (Z.to_int z).

(** [s.indexOf(sub)]: position of the first occurrence, or -1. *)
Definition indexOf (s sub : string) : Z :=
  match String.index 0 sub s with
  | Some n => Z.of_nat n
  | None => -1
  end.

(** ** ArduinoJson documents

    The JSON library is not part of the repository.  A document is the
    tree of values it stands for; a floating-point value is kept as the
    text the serializer prints for it.  Assignment through [doc[key]]
    and [serializeJson] follow the library's documented behaviour; the
    parser itself is a parameter of the server model (see section
    [Server]) and [RefJson] below is one instance of it. *)

Inductive JsonVariant : Type :=
| JNull
| JBool (b : bool)
| JInt (z : Z)
| JFloat (repr : string)
| JString (s : string)
| JArray (elements : list JsonVariant)
| JObject (members : list (string * JsonVariant)).

(** Replace the value of the first member named [key], or append a new
    member when there is none. *)
Fixpoint assignMember (key : string) (value : JsonVariant)
    (members : list (string * JsonVariant)) : list (string * JsonVariant) :=
  match members with
  | [] => [(key, value)]
  | (k, v) :: rest =>
      if String.eqb k key then (k, value) :: rest
      else (k, v) :: assignMember key value rest
  end.

(** [doc[key] = value]: an empty document becomes an object, an object
    gets the member, any other root is left as it is.  The pool of the
    document is taken to have room for the one member that may be
    added. *)
Definition setMember (doc : JsonVariant) (key : string) (value : JsonVariant)
    : JsonVariant :=
  match doc with
  | JNull => JObject [(key, value)]
  | JObject members => JObject (assignMember key value members)
  | _ => doc
  end.

(** [doc[key]] read back: the first member named [key] of an object. *)
Fixpoint lookupMember (key : string) (members : list (string * JsonVariant))
    : option JsonVariant :=
  match members with
  | [] => None
  | (k, v) :: rest => if String.eqb k key then Some v else lookupMember key rest
  end.

Definition getMember (doc : JsonVariant) (key : string) : option JsonVariant :=
  match doc with
  | JObject members => lookupMember key members
  | _ => None
  end.

Definition escapeChar (c : ascii) : string :=
  match c with
  | "034"%char => String "\" dq
  | "\"%char => "\\"
  | "008"%char => "\b"
  | "012"%char => "\f"
  | "010"%char => "\n"
  | "013"%char => "\r"
  | "009"%char => "\t"
  | _ => String c EmptyString
  end.

Fixpoint escapeString (s : string) : string :=
  match s with
  | EmptyString => EmptyString
  | String c rest => (escapeChar c ++ escapeString rest)%string
  end.

(** [serializeJson(doc, out)]: the minified text of the document. *)
Fixpoint serializeJson (v : JsonVariant) : string :=
  match v with
  | JNull => "null"
  | JBool true => "true"
  | JBool false => "false"
  | JInt z => String_of_int z
  | JFloat repr => repr
  | JString s => quoted (escapeString s)
  | JArray elements =>
      let fix items (l : list JsonVariant) : string :=
        match l with
        | [] => EmptyString
        | [x] => serializeJson x
        | x :: rest => (serializeJson x ++ "," ++ items rest)%string
        end in
      ("[" ++ items elements ++ "]")%string
  | JObject members =>
      let fix items (l : list (string * JsonVariant)) : string :=
        match l with
        | [] => EmptyString
        | [(k, x)] => (quoted (escapeString k) ++ ":" ++ serializeJson x)%string
        | (k, x) :: rest =>
            (quoted (escapeString k) ++ ":" ++ serializeJson x ++ ","
               ++ items rest)%string
        end in
      ("{" ++ items members ++ "}")%string
  end.

(** ** A reference JSON reader

    One instance of the parser parameter: objects, arrays, strings with
    the simple escapes, integers, [true], [false] and [null]; leading
    white space is skipped, input after the first value is ignored, a
    repeated key replaces the earlier value, and input that cannot be
    read leaves the empty document. *)
Module RefJson.

Definition isSpace (c : ascii) : bool :=
  (c =? " ")%char || (c =? "009")%char || (c =? "010")%char
  || (c =? "013")%char.

Fixpoint skipSpace (s : string) : string :=
  match s with
  | String c rest => if isSpace c then skipSpace rest else s
  | EmptyString => s
  end.

Definition unescape (c : ascii) : option ascii :=
  match c with
  | "034"%char => Some "034"%char
  | "\"%char => Some "\"%char
  | "/"%char => Some "/"%char
  | "b"%char => Some "008"%char
  | "f"%char => Some "012"%char
  | "n"%char => Some "010"%char
  | "r"%char => Some "013"%char
  | "t"%char => Some "009"%char
  | _ => None
  end.

(** The characters of a string literal after its opening quote, and the
    input left after the closing quote. *)
Fixpoint readString (s : string) : option (string * string) :=
  match s with
  | EmptyString => None
  | String "034"%char rest => Some (EmptyString, rest)
  | String "\"%char (String e rest) =>
      match unescape e, readString rest with
      | Some c, Some (t, rest') => Some (String c t, rest')
      | _, _ => None
      end
  | String c rest =>
      match readString rest with
      | Some (t, rest') => Some (String c t, rest')
      | None => None
      end
  end.

Definition digit (c : ascii) : option Z :=
  let n := Z.of_nat (nat_of_ascii c) in
  if (48 <=? n) && (n <=? 57) then Some (n - 48) else None.

Fixpoint readDigits (acc : Z) (s : string) : Z * string :=
  match s with
  | String c rest =>
      match digit c with
      | Some d => readDigits (10 * acc + d) rest
      | None => (acc, s)
      end
  | EmptyString => (acc, s)
  end.

Definition readInteger (s : string) : option (Z * string) :=
  match s with
  | String "-"%char (String c rest) =>
      match digit c with
      | Some d => let '(n, rest') := readDigits d rest in Some (- n, rest')
      | None => None
      end
  | String c rest =>
      match digit c with
      | Some d => Some (readDigits d rest)
      | None => None
      end
  | EmptyString => None
  end.

Definition dropPrefix (p s : string) : option string :=
  if String.prefix p s
  then Some (String.substring (String.length p)
               (String.length s - String.length p) s)
  else None.

Definition readLiteral (s : string) : option (JsonVariant * string) :=
  match dropPrefix "true" s, dropPrefix "false" s, dropPrefix "null" s with
  | Some rest, _, _ => Some (JBool true, rest)
  | _, Some rest, _ => Some (JBool false, rest)
  | _, _, Some rest => Some (JNull, rest)
  | _, _, _ =>
      match readInteger s with
      | Some (n, rest) => Some (JInt n, rest)
      | None => None
      end
  end.

Fixpoint readValue (fuel : nat) (s : string) : option (JsonVariant * string) :=
  match fuel with
  | O => None
  | S fuel' =>
      match skipSpace s with
      | String "{"%char rest =>
          match skipSpace rest with
          | String "}"%char rest' => Some (JObject [], rest')
          | _ =>
              match readMembers fuel' [] rest with
              | Some (members, rest') => Some (JObject members, rest')
              | None => None
              end
          end
      | String "["%char rest =>
          match skipSpace rest with
          | String "]"%char rest' => Some (JArray [], rest')
          | _ =>
              match readElements fuel' rest with
              | Some (elements, rest') => Some (JArray elements, rest')
              | None => None
              end
          end
      | String "034"%char rest =>
          match readString rest with
          | Some (t, rest') => Some (JString t, rest')
          | None => None
          end
      | other => readLiteral other
      end
  end
with readMembers (fuel : nat) (acc : list (string * JsonVariant)) (s : string)
    : option (list (string * JsonVariant) * string) :=
  match fuel with
  | O => None
  | S fuel' =>
      match skipSpace s with
      | String "034"%char rest =>
          match readString rest with
          | Some (key, rest1) =>
              match skipSpace rest1 with
              | String ":"%char rest2 =>
                  match readValue fuel' rest2 with
                  | Some (v, rest3) =>
                      let acc' := assignMember key v acc in
                      match skipSpace rest3 with
                      | String ","%char rest4 => readMembers fuel' acc' rest4
                      | String "}"%char rest4 => Some (acc', rest4)
                      | _ => None
                      end
                  | None => None
                  end
              | _ => None
              end
          | None => None
          end
      | _ => None
      end
  end
with readElements (fuel : nat) (s : string)
    : option (list JsonVariant * string) :=
  match fuel with
  | O => None
  | S fuel' =>
      match readValue fuel' s with
      | Some (v, rest) =>
          match skipSpace rest with
          | String ","%char rest' =>
              match readElements fuel' rest' with
              | Some (vs, rest'') => Some (v :: vs, rest'')
              | None => None
              end
          | String "]"%char rest' => Some ([v], rest')
          | _ => None
          end
      | None => None
      end
  end.

Definition deserializeJson (input : string) : JsonVariant :=
  match readValue (S (String.length input)) input with
  | Some (doc, _) => doc
  | None => JNull
  end.

End RefJson.

(** ** Data model *)

(** A connection handle of the ArduinoWebsockets library. *)
Definition WebsocketsClient : Type := nat.

(** [struct CameraClient]; the constructor takes [id = -1] by default
    and stamps [lastActivity] with [millis()]. *)
Record CameraClient : Type := mkCameraClient {
  client : WebsocketsClient;
  cameraId : Z;
  lastActivity : Z
}.

(** What [readBlocking()] hands back: a text message, a binary message,
    or any other frame, for which [isText()] and [isBinary()] are both
    false. *)
Inductive WebsocketsMessage : Type :=
| TextMessage (data : string)
| BinaryMessage (payload : list byte)
| ControlMessage.

(** A call on [wsBrowser]. *)
Inductive BrowserEvent : Type :=
| textAll (msg : string)
| binaryAll (chunk : list byte).

(** [struct StaticFrameBuffer]: the array [data] of [SIZE] bytes and
    the number of bytes of the frame it holds. *)
Module StaticFrameBuffer.
Definition SIZE : Z := MAX_FRAME_SIZE.
Record t : Type := mk { data : list byte; length : Z }.
End StaticFrameBuffer.

Record ServerState : Type := mkServerState {
  camClients : list (option CameraClient);
  activeClients : Z;
  frameBuffer : StaticFrameBuffer.t;
  lastCheck : Z;       (* static of monitorMemory *)
  lowMemCount : Z;     (* static of monitorMemory *)
  lastMemCheck : Z     (* static of loop *)
}.

(** The state the globals are initialised to. *)
Definition initialState : ServerState :=
  {| camClients := replicate (Z.to_nat MAX_CLIENTS) None;
     activeClients := 0;
     frameBuffer :=
       StaticFrameBuffer.mk
         (replicate (Z.to_nat StaticFrameBuffer.SIZE) "000"%byte) 0;
     lastCheck := 0;
     lowMemCount := 0;
     lastMemCheck := 0 |}.

Definition setClients (st : ServerState)
    (slots : list (option CameraClient)) (active : Z) : ServerState :=
  {| camClients := slots;
     activeClients := active;
     frameBuffer := frameBuffer st;
     lastCheck := lastCheck st;
     lowMemCount := lowMemCount st;
     lastMemCheck := lastMemCheck st |}.

Definition setFrameBuffer (st : ServerState) (fb : StaticFrameBuffer.t)
    : ServerState :=
  {| camClients := camClients st;
     activeClients := activeClients st;
     frameBuffer := fb;
     lastCheck := lastCheck st;
     lowMemCount := lowMemCount st;
     lastMemCheck := lastMemCheck st |}.

Definition setMonitor (st : ServerState) (check count : Z) : ServerState :=
  {| camClients := camClients st;
     activeClients := activeClients st;
     frameBuffer := frameBuffer st;
     lastCheck := check;
     lowMemCount := count;
     lastMemCheck := lastMemCheck st |}.

Definition setLastMemCheck (st : ServerState) (t : Z) : ServerState :=
  {| camClients := camClients st;
     activeClients := activeClients st;
     frameBuffer := frameBuffer st;
     lastCheck := lastCheck st;
     lowMemCount := lowMemCount st;
     lastMemCheck := t |}.

(** Number of slots that hold a client. *)
Definition occupied (slots : list (option CameraClient)) : nat :=
  length (filter is_Some slots).

(** ** Status messages *)

(** ["{\"type\":\"status\",\"camera\":" + String(id) +
     ",\"status\":\"<status>\"}"] *)
Definition statusMsg (id : Z) (status : string) : string :=
  ("{" ++ quoted "type" ++ ":" ++ quoted "status" ++ "," ++ quoted "camera"
     ++ ":" ++ String_of_int id ++ "," ++ quoted "status" ++ ":"
     ++ quoted status ++ "}")%string.

(** The literal ["\"type\":\"motion\""]. *)
Definition motionPattern : string :=
  (quoted "type" ++ ":" ++ quoted "motion")%string.

(** ** addCameraClient *)

(** [freeHeap] is the reading of [ESP.getFreeHeap()], [now] the reading
    of [millis()] in the constructor of [CameraClient]. *)
Definition addCameraClient (st : ServerState) (c : WebsocketsClient)
    (freeHeap now : Z) : bool * ServerState :=
  if activeClients st >=? MAX_CLIENTS then (false, st)
  else if freeHeap <? MAX_FRAME_SIZE + 1024 then (false, st)
  else
    match list_find (fun slot : option CameraClient => slot = None)
            (take (Z.to_nat MAX_CLIENTS) (camClients st)) with
    | Some (i, _) =>
        (true,
         setClients st
           (<[i := Some (mkCameraClient c (-1) now)]> (camClients st))
           (wrap32 (activeClients st + 1)))
    | None => (false, st)
    end.

(** ** removeCameraClient *)

Definition removeCameraClient (st : ServerState) (index : nat)
    : ServerState * list BrowserEvent :=
  if Z.of_nat index <? MAX_CLIENTS then
    match camClients st !! index with
    | Some (Some removed) =>
        let removedId := cameraId removed in
        (setClients st (<[index := None]> (camClients st))
           (wrap32 (activeClients st - 1)),
         [textAll (statusMsg removedId "disconnected")])
    | _ => (st, [])
    end
  else (st, []).

(** ** monitorMemory *)

(** The cleanup loop: every occupied slot is reset and counted off. *)
Fixpoint resetAll (slots : list (option CameraClient)) (active : Z)
    : list (option CameraClient) * Z :=
  match slots with
  | [] => ([], active)
  | Some _ :: rest =>
      let '(rest', active') := resetAll rest (wrap32 (active - 1)) in
      (None :: rest', active')
  | None :: rest =>
      let '(rest', active') := resetAll rest active in
      (None :: rest', active')
  end.

(** [now] is the reading of [millis()], [freeHeap] the reading of
    [ESP.getFreeHeap()], stored in an [int].  The function calls nothing
    on [wsBrowser].  The counter, an [int], stays between 0 and 5 (lemma
    [monitorMemory_count_range]), so its increment is the plain one. *)
Definition monitorMemory (st : ServerState) (now freeHeap : Z) : ServerState :=
  if wrap32 (now - lastCheck st) >? 1000 then
    if to_int freeHeap <? 10000 then
      let count := lowMemCount st + 1 in
      if count >? 5 then
        let '(slots, active) :=
          resetAll (take (Z.to_nat MAX_CLIENTS) (camClients st))
            (activeClients st) in
        setMonitor
          (setClients st
             (slots ++ drop (Z.to_nat MAX_CLIENTS) (camClients st)) active)
          now 0
      else setMonitor st now count
    else setMonitor st now 0
  else st.

(** The guard of the cleanup block of [monitorMemory]: a sample is due,
    it is low, and the counter passes 5. *)
Definition forcedReset (st : ServerState) (now freeHeap : Z) : bool :=
  (wrap32 (now - lastCheck st) >? 1000)
  && (to_int freeHeap <? 10000)
  && (lowMemCount st + 1 >? 5).

(** Whether a call of [monitorMemory] takes a sample. *)
Definition sampleDue (st : ServerState) (now : Z) : bool :=
  wrap32 (now - lastCheck st) >? 1000.

(** ** Frame forwarding *)

(** [memcpy(dst, src, n)] on byte arrays. *)
Definition memcpy (dst src : list byte) (n : Z) : list byte :=
  take (Z.to_nat n) src ++ drop (Z.to_nat n) dst.

(** The [chunk] bytes at [data + offset]. *)
Definition bytesAt (data : list byte) (offset chunk : Z) : list byte :=
  take (Z.to_nat chunk) (drop (Z.to_nat offset) data).

(** The forwarding loop
    [for (offset = 0; offset < len; offset += CHUNK_SIZE)] over the first
    [len] bytes of the buffer, entered at [offset]; the [delay(1)]
    between chunks is not a broadcast. *)
Equations? forwardChunks (data : list byte) (len offset : Z)
    : list BrowserEvent by wf (Z.to_nat (len - offset)) lt :=
  forwardChunks data len offset with Z_lt_dec offset len := {
    | left _ =>
        let chunk := Z.min CHUNK_SIZE (len - offset) in
        binaryAll (bytesAt data offset chunk)
          :: forwardChunks data len (offset + CHUNK_SIZE)
    | right _ => [] }.
Proof. unfold CHUNK_SIZE. lia. Qed.

(** The identity tag of a frame byte, as an [int]. *)
Definition byteValue (b : byte) : Z := Z.of_N (Byte.to_N b).

(** ** handleWebSocketMessage and loop *)

(** The readings a slot's turn takes from the environment:
    [client.available()], [ESP.getFreeHeap()] and the message that
    [readBlocking()] returns. *)
Record SlotInput : Type := mkSlotInput {
  available : bool;
  freeHeap : Z;
  message : WebsocketsMessage
}.

(** The readings of one pass of [loop]. *)
Record LoopInput : Type := mkLoopInput {
  currentTime : Z;            (* millis() at the top of loop *)
  monitorNow : Z;             (* millis() inside monitorMemory *)
  monitorHeap : Z;            (* getFreeHeap() inside monitorMemory *)
  poll : bool;                (* wsServer.poll() *)
  accepted : WebsocketsClient;(* wsServer.accept() *)
  acceptedAvailable : bool;   (* newClient.available() *)
  admitHeap : Z;              (* getFreeHeap() inside addCameraClient *)
  admitNow : Z;               (* millis() in the CameraClient constructor *)
  slotInput : nat -> SlotInput
}.

(** The operations on the server: an admission attempt, an eviction,
    a call of [monitorMemory], the turn of one slot, and a whole pass
    of [loop]. *)
Inductive Operation : Type :=
| Admit (c : WebsocketsClient) (freeHeap now : Z)
| Evict (index : nat)
| Monitor (now freeHeap : Z)
| Service (i : nat) (currentTime : Z) (io : SlotInput)
| Pass (inp : LoopInput).

(** ** Sample inputs *)

(** The text the camera sketch sends:
    ["{\"type\":\"motion\",\"detected\":true}"]. *)
Definition motionMessage : string :=
  ("{" ++ quoted "type" ++ ":" ++ quoted "motion" ++ "," ++ quoted "detected"
     ++ ":true}")%string.

(** A motion message that names a camera of its own choice. *)
Definition spoofedMotionMessage (camera : Z) : string :=
  ("{" ++ quoted "type" ++ ":" ++ quoted "motion" ++ "," ++ quoted "camera"
     ++ ":" ++ String_of_int camera ++ "," ++ quoted "detected"
     ++ ":true}")%string.

(** A text with the motion type and no [detected] member. *)
Definition bareMotionMessage : string :=
  ("{" ++ quoted "type" ++ ":" ++ quoted "motion" ++ "}")%string.

(** The greeting the camera sketch sends after a reconnect. *)
Definition reconnectMessage : string := "CAMERA_RECONNECTED".

(** A 20-byte frame with [tag] at offset 12. *)
Definition taggedFrame (tag : byte) : list byte :=
  replicate 12 "255"%byte ++ [tag] ++ replicate 7 "007"%byte.

(** A frame of [n] bytes, every byte [b]. *)
Definition flatFrame (n : nat) (b : byte) : list byte := replicate n b.

Definition smallBuffer : StaticFrameBuffer.t :=
  StaticFrameBuffer.mk (replicate 32 "000"%byte) 0.

Definition readyInput (m : WebsocketsMessage) : SlotInput :=
  mkSlotInput true 60000 m.

Definition silentInput : SlotInput := mkSlotInput false 60000 ControlMessage.

(** A client that has identity 1, and one that has none yet. *)
Definition camera1 : CameraClient := mkCameraClient 7%nat 1 100.
Definition unassigned : CameraClient := mkCameraClient 7%nat (-1) 100.

(** The state after one admission at time 1000: slot 0 holds a client
    without identity. *)
Definition oneClientState : ServerState :=
  snd (addCameraClient initialState 7%nat 60000 1000).

(** Seven calls of [monitorMemory], two seconds apart, each reading
    5000 bytes of free heap. *)
Definition lowMemoryCalls : list (Z * Z) :=
  map (fun k : Z => (2000 * k, 5000)) [1; 2; 3; 4; 5; 6; 7].

(** A pass of [loop] at time [t] in which no connection is waiting, no
    client has a message, and [monitorMemory] reads [heap]. *)
Definition quietPass (t heap : Z) : LoopInput :=
  mkLoopInput t t heap false 0%nat false 60000 t (fun _ => silentInput).

(** A client is admitted and sends a frame tagged 1; then five passes,
    1.2 seconds apart, see 5000 bytes of free heap. *)
Definition pressureOps : list Operation :=
  [Admit 7%nat 60000 1000;
   Service 0 1500 (readyInput (BinaryMessage (taggedFrame "001"%byte)));
   Pass (quietPass 2000 5000); Pass (quietPass 3200 5000);
   Pass (quietPass 4400 5000); Pass (quietPass 5600 5000);
   Pass (quietPass 6800 5000)].

(** ** Notions used in the statements *)

(** The table has its [MAX_CLIENTS] slots and [activeClients] counts
    the occupied ones. *)
Definition tableInvariant (st : ServerState) : Prop :=
  length (camClients st) = Z.to_nat MAX_CLIENTS
  /\ activeClients st = Z.of_nat (occupied (camClients st)).

Definition isText (e : BrowserEvent) : bool :=
  match e with
  | textAll _ => true
  | binaryAll _ => false
  end.

(** The samples a run of [monitorMemory] takes over a list of calls
    [(now, freeHeap)]: for every call that takes a sample, the sampled
    value and whether the cleanup block ran. *)
Fixpoint sampleLog (st : ServerState) (calls : list (Z * Z))
    : list (Z * bool) :=
  match calls with
  | [] => []
  | (now, heap) :: rest =>
      let st' := monitorMemory st now heap in
      if sampleDue st now
      then (to_int heap, forcedReset st now heap) :: sampleLog st' rest
      else sampleLog st' rest
  end.

(** Two member lists that are equal except for the value of the first
    member named [camera]. *)
Fixpoint sameExceptCamera (m1 m2 : list (string * JsonVariant)) : Prop :=
  match m1, m2 with
  | [], [] => True
  | (k1, v1) :: r1, (k2, v2) :: r2 =>
      k1 = k2
      /\ (if String.eqb k1 "camera" then r1 = r2
          else v1 = v2 /\ sameExceptCamera r1 r2)
  | _, _ => False
  end.

(** The motion-event shape in the words of the specification, an object
    [{type:"motion", detected: bool}], read with the reference reader. *)
Definition motionEventShape (data : string) : bool :=
  match RefJson.deserializeJson data with
  | JObject members =>
      match lookupMember "type" members, lookupMember "detected" members with
      | Some (JString t), Some (JBool _) => String.eqb t "motion"
      | _, _ => false
      end
  | _ => false
  end.

(** The status events of an identity change in the words of the
    specification: a disconnect for the old identity only if one was
    assigned, then a connect for the new one. *)
Definition claimedStatusEvents (old new : Z) : list BrowserEvent :=
  (if old =? -1 then [] else [textAll (statusMsg old "disconnected")])
  ++ [textAll (statusMsg new "connected")].

(** The number of chunks for [len] bytes, [ceil (len / CHUNK_SIZE)]. *)
Definition chunkCount (len : Z) : Z := (len + CHUNK_SIZE - 1) / CHUNK_SIZE.

(** A frame cut at the multiples of [CHUNK_SIZE]: piece k holds the
    bytes from offset [k * CHUNK_SIZE] on, [CHUNK_SIZE] of them or as
    many as are left. *)
Definition framePieces (payload : list byte) : list (list byte) :=
  map (fun k : nat =>
         take (Z.to_nat CHUNK_SIZE) (drop (k * Z.to_nat CHUNK_SIZE) payload))
    (seq 0 (Z.to_nat (chunkCount (Z.of_nat (length payload))))).

(** The identity tag of a frame: its byte at offset 12. *)
Definition frameTag (payload : list byte) : Z :=
  byteValue (default "000"%byte (payload !! 12%nat)).

(** ** The camera sketch

    The second program of the file: the producer that runs on each
    camera.  Its globals are [lastPirState] and [startTime]; what it
    hands to its [WebsocketsClient] is its output. *)

Definition sleepTriggerTimeout : Z := 30000.

Record CameraState : Type := mkCameraState {
  lastPirState : bool;
  startTime : Z
}.

(** A call on the camera's [client]. *)
Inductive CameraSend : Type :=
| sendText (msg : string)
| sendBinary (payload : list byte)
| closeConnection.

(** ["{\"type\":\"motion\",\"detected\":" +
     String(currentPirState ? "true" : "false") + "}"] *)
Definition pirMessage (currentPirState : bool) : string :=
  ("{" ++ quoted "type" ++ ":" ++ quoted "motion" ++ "," ++ quoted "detected"
     ++ ":" ++ (if currentPirState then "true" else "false") ++ "}")%string.

(** [currentPirState] is the reading of [digitalRead(PIR_PIN)],
    [connected] the reading of [client.available()], [now] the reading
    of [millis()]. *)
Definition checkAndResetTimer (cam : CameraState)
    (currentPirState connected : bool) (now : Z)
    : CameraState * list CameraSend :=
  if negb (Bool.eqb currentPirState (lastPirState cam)) then
    (mkCameraState currentPirState
       (if currentPirState then now else startTime cam),
     if connected then [sendText (pirMessage currentPirState)] else [])
  else (mkCameraState currentPirState (startTime cam), []).

(** What [prepareSleep] sends before the device goes to deep sleep,
    from which the call does not return. *)
Definition prepareSleep (connected : bool) : list CameraSend :=
  if connected then [sendText (pirMessage false); closeConnection] else [].

Inductive PixelFormat : Type :=
| PIXFORMAT_JPEG
| PIXFORMAT_OTHER.

(** [camera_fb_t]: the format and the [len] bytes of [buf]. *)
Record CameraFrame : Type := mkCameraFrame {
  format : PixelFormat;
  buf : list byte
}.

(** The readings of one pass of the camera's [loop], in the order the
    pass takes them; [captured] is [None] when [esp_camera_fb_get()]
    returns [NULL]. *)
Record CameraInput : Type := mkCameraInput {
  pirReading : bool;
  connectedAtCheck : bool;
  nowAtCheck : Z;
  nowAtLoop : Z;
  connectedAtSleep : bool;
  captured : option CameraFrame;
  connectedAtSend : bool
}.

(** A pass either ends in deep sleep or returns to be called again. *)
Inductive CameraOutcome : Type :=
| DeepSleep (sent : list CameraSend)
| NextPass (cam : CameraState) (sent : list CameraSend).

(** The camera's [loop].  The store [fb->buf[12] = 0x01] shows in the
    bytes sent when the frame has more than 12 of them. *)
Definition cameraLoop (cam : CameraState) (inp : CameraInput) : CameraOutcome :=
  let '(cam1, sent1) :=
    checkAndResetTimer cam (pirReading inp) (connectedAtCheck inp)
      (nowAtCheck inp) in
  if wrap32 (nowAtLoop inp - startTime cam1) >=? sleepTriggerTimeout then
    DeepSleep (sent1 ++ prepareSleep (connectedAtSleep inp))
  else
    match captured inp with
    | None => NextPass cam1 sent1
    | Some fb =>
        match format fb with
        | PIXFORMAT_JPEG =>
            let tagged := <[12%nat := "001"%byte]> (buf fb) in
            NextPass cam1
              (sent1 ++ if connectedAtSend inp then [sendBinary tagged] else [])
        | PIXFORMAT_OTHER => NextPass cam1 sent1
        end
    end.

(** What a pass handed to the connection. *)
Definition outcomeSent (outcome : CameraOutcome) : list CameraSend :=
  match outcome with
  | DeepSleep sent => sent
  | NextPass _ sent => sent
  end.

(** The motion sensor polled over a list of readings
    [(currentPirState, connected, now)]. *)
Fixpoint pollSensor (cam : CameraState) (readings : list (bool * bool * Z))
    : CameraState * list CameraSend :=
  match readings with
  | [] => (cam, [])
  | (currentPirState, connected, now) :: rest =>
      let '(cam1, sent1) :=
        checkAndResetTimer cam currentPirState connected now in
      let '(cam2, sent2) := pollSensor cam1 rest in
      (cam2, sent1 ++ sent2)
  end.

(** The values of a list of sensor readings that differ from the
    reading before them, [prev] being the one before the first. *)
Fixpoint changes (prev : bool) (readings : list bool) : list bool :=
  match readings with
  | [] => []
  | r :: rest =>
      if Bool.eqb r prev then changes r rest else r :: changes r rest
  end.

(** ** Further sample inputs *)

(** The camera just woken up, sensor low, timer started at 0. *)
Definition cameraAwake : CameraState := mkCameraState false 0.

(** A captured JPEG frame of 20 bytes. *)
Definition capturedFrame : CameraFrame :=
  mkCameraFrame PIXFORMAT_JPEG (replicate 20 "255"%byte).

(** A pass of the camera, 40 seconds after the start, in which the
    sensor reads high, the connection is up and a frame is captured. *)
Definition cameraPass : CameraInput :=
  mkCameraInput true true 40000 40010 true (Some capturedFrame) true.

(** Five polls of the sensor with the connection up:
    high, high, low, low, high. *)
Definition sensorReadings : list (bool * bool * Z) :=
  [(true, true, 100); (true, true, 200); (false, true, 300);
   (false, true, 400); (true, true, 500)].

(** A pass of the server in which a connection is waiting. *)
Definition admittingPass (t : Z) : LoopInput :=
  mkLoopInput t t 60000 true 8%nat true 60000 t (fun _ => silentInput).

(** ** Further notions used in the statements *)

(** The array of a frame buffer has its [SIZE] bytes and the recorded
    length lies within it. *)
Definition bufferOk (fb : StaticFrameBuffer.t) : Prop :=
  length (StaticFrameBuffer.data fb) = Z.to_nat StaticFrameBuffer.SIZE
  /\ 0 <= StaticFrameBuffer.length fb <= StaticFrameBuffer.SIZE.

(** Every client in the table has the identity -1, 1 or 2. *)
Definition identitiesValid (slots : list (option CameraClient)) : Prop :=
  forall (i : nat) c,
    slots !! i = Some (Some c) ->
    cameraId c = -1 \/ cameraId c = 1 \/ cameraId c = 2.

(** A broadcast that, when binary, carries between 1 and [CHUNK_SIZE]
    bytes. *)
Definition chunkSized (e : BrowserEvent) : Prop :=
  match e with
  | textAll _ => True
  | binaryAll chunk => (0 < length chunk <= Z.to_nat CHUNK_SIZE)%nat
  end.

(** The causes for which [handleWebSocketMessage] returns false: no
    message pending, too little free heap, a frame that is neither text
    nor binary, a binary frame above [MAX_FRAME_SIZE]. *)
Definition rejected (io : SlotInput) : Prop :=
  available io = false
  \/ freeHeap io < MAX_FRAME_SIZE + 1024
  \/ message io = ControlMessage
  \/ (exists payload, message io = BinaryMessage payload
        /\ MAX_FRAME_SIZE < Z.of_nat (length payload)).


(** A pending binary frame that fits, with enough free heap. *)
Definition acceptedFrame (io : SlotInput) (payload : list byte) : Prop :=
  available io = true
  /\ MAX_FRAME_SIZE + 1024 <= freeHeap io
  /\ message io = BinaryMessage payload
  /\ Z.of_nat (length payload) <= MAX_FRAME_SIZE.

(** The frame buffer after a frame has been copied into it. *)
Definition bufferWith (fb : StaticFrameBuffer.t) (payload : list byte)
    : StaticFrameBuffer.t :=
  StaticFrameBuffer.mk
    (payload ++ drop (length payload) (StaticFrameBuffer.data fb))
    (Z.of_nat (length payload)).

(** ** Reading a broadcast back *)

(** A motion message with a space after each colon and comma, naming
    camera 1:
    ["{\"type\": \"motion\", \"detected\": true, \"camera\": 1}"]. *)
Definition spacedMotionMessage : string :=
  ("{" ++ quoted "type" ++ ": " ++ quoted "motion" ++ ", "
     ++ quoted "detected" ++ ": true, " ++ quoted "camera" ++ ": 1}")%string.

(** The same message with an object as the value of [camera]:
    ["{\"type\": \"motion\", \"detected\": true,
       \"camera\": {\"type\":\"motion\"}}"]. *)
Definition nestedMotionMessage : string :=
  ("{" ++ quoted "type" ++ ": " ++ quoted "motion" ++ ", "
     ++ quoted "detected" ++ ": true, " ++ quoted "camera" ++ ": {"
     ++ quoted "type" ++ ":" ++ quoted "motion" ++ "}}")%string.

(** What follows a number in a text is not a digit. *)
Definition noDigitAhead (rest : string) : Prop :=
  match rest with
  | String c _ => RefJson.digit c = None
  | EmptyString => True
  end.

(** The text of one member, and items joined by commas. *)
Definition memberText (m : string * JsonVariant) : string :=
  (quoted (escapeString (fst m)) ++ ":" ++ serializeJson (snd m))%string.

Fixpoint joinItems (items : list string) : string :=
  match items with
  | [] => EmptyString
  | [x] => x
  | x :: rest => (x ++ "," ++ joinItems rest)%string
  end.

(** Documents the reference reader can read back: no floating-point
    value, and no key twice in one object. *)
Fixpoint readable (v : JsonVariant) : Prop :=
  match v with
  | JFloat _ => False
  | JArray elements =>
      (fix all (l : list JsonVariant) : Prop :=
         match l with
         | [] => True
         | x :: r => readable x /\ all r
         end) elements
  | JObject members =>
      (fix all (l : list (string * JsonVariant)) : Prop :=
         match l with
         | [] => True
         | (k, x) :: r => readable x /\ lookupMember k r = None /\ all r
         end) members
  | _ => True
  end.

(** A bound on the fuel the reader needs for a document. *)
Fixpoint documentSize (v : JsonVariant) : nat :=
  match v with
  | JArray elements =>
      S ((fix sum (l : list JsonVariant) : nat :=
            match l with
            | [] => 0%nat
            | x :: r => (S (documentSize x) + sum r)%nat
            end) elements)
  | JObject members =>
      S ((fix sum (l : list (string * JsonVariant)) : nat :=
            match l with
            | [] => 0%nat
            | (_, x) :: r => (S (documentSize x) + sum r)%nat
            end) members)
  | _ => 1%nat
  end.

(** The characters a value's text can start with. *)
Definition valueStart (c : ascii) : bool :=
  match c with
  | "{"%char | "["%char | "034"%char | "-"%char
  | "0"%char | "1"%char | "2"%char | "3"%char | "4"%char
  | "5"%char | "6"%char | "7"%char | "8"%char | "9"%char
  | "t"%char | "f"%char | "n"%char => true
  | _ => false
  end.

(** The reader gives a value back from its text, whatever follows it
    (but a digit) and whatever fuel is left above its documentSize. *)
Definition readsBack (v : JsonVariant) : Prop :=
  forall fuel rest,
    (documentSize v <= fuel)%nat ->
    noDigitAhead rest ->
    RefJson.readValue fuel (serializeJson v ++ rest) = Some (v, rest).

(** The members read so far, extended by the members of a text. *)
Definition mergeMembers (acc members : list (string * JsonVariant))
    : list (string * JsonVariant) :=
  fold_left (fun a m => assignMember (fst m) (snd m) a) members acc.

Section Server.

(** [deserializeJson(doc, input)] on a fresh 256-byte document: the
    content of the document after the call, whatever error the call
    reports (the server does not look at it). *)
Variable deserializeJson : string -> JsonVariant.

(** The identity part of the binary branch: the client after the
    possible reassignment and the status messages sent. *)
Definition retag (c : CameraClient) (fb : StaticFrameBuffer.t)
    : CameraClient * list BrowserEvent :=
  if StaticFrameBuffer.length fb >? 12 then
    let receivedCameraId :=
      byteValue (default "000"%byte (StaticFrameBuffer.data fb !! 12%nat)) in
    if (receivedCameraId =? 1) || (receivedCameraId =? 2) then
      if negb (cameraId c =? receivedCameraId) then
        (mkCameraClient (client c) receivedCameraId (lastActivity c),
         [textAll (statusMsg (cameraId c) "disconnected");
          textAll (statusMsg receivedCameraId "connected")])
      else (c, [])
    else (c, [])
  else (c, []).

(** The result is the returned flag, the client and the frame buffer
    after the call, and the broadcasts made. *)
Definition handleWebSocketMessage (c : CameraClient)
    (fb : StaticFrameBuffer.t) (io : SlotInput)
    : bool * CameraClient * StaticFrameBuffer.t * list BrowserEvent :=
  if negb (available io) then (false, c, fb, [])
  else if freeHeap io <? MAX_FRAME_SIZE + 1024 then (false, c, fb, [])
  else
    match message io with
    | TextMessage data =>
        if indexOf data motionPattern >=? 0 then
          let doc := deserializeJson data in
          let doc := setMember doc "camera" (JInt (cameraId c)) in
          let modifiedMsg := serializeJson doc in
          (true, c, fb, [textAll modifiedMsg])
        else (true, c, fb, [])
    | BinaryMessage payload =>
        let msgLen := Z.of_nat (length payload) in
        if msgLen >? MAX_FRAME_SIZE then (false, c, fb, [])
        else if msgLen <=? StaticFrameBuffer.SIZE then
          let fb1 :=
            StaticFrameBuffer.mk
              (memcpy (StaticFrameBuffer.data fb) payload msgLen) msgLen in
          let '(c1, status) := retag c fb1 in
          (true, c1, fb1,
           status ++ forwardChunks (StaticFrameBuffer.data fb1)
                       (StaticFrameBuffer.length fb1) 0)
        else (false, c, fb, [])
    | ControlMessage => (false, c, fb, [])
    end.

(** One turn of the [for] loop of [loop] for slot [i]. *)
Definition serviceSlot (st : ServerState) (i : nat) (currentTime : Z)
    (io : SlotInput) : ServerState * list BrowserEvent :=
  match camClients st !! i with
  | Some (Some c) =>
      let '(ok, c1, fb1, sent) :=
        handleWebSocketMessage c (frameBuffer st) io in
      let st1 :=
        setFrameBuffer
          (setClients st (<[i := Some c1]> (camClients st)) (activeClients st))
          fb1 in
      if ok then
        (setClients st1
           (<[i := Some (mkCameraClient (client c1) (cameraId c1) currentTime)]>
              (camClients st1))
           (activeClients st1),
         sent)
      else if wrap32 (currentTime - lastActivity c1) >? CLIENT_TIMEOUT then
        let '(st2, notice) := removeCameraClient st1 i in
        (st2, sent ++ notice)
      else (st1, sent)
  | _ => (st, [])
  end.

Fixpoint serviceSlots (st : ServerState) (indices : list nat)
    (currentTime : Z) (input : nat -> SlotInput)
    : ServerState * list BrowserEvent :=
  match indices with
  | [] => (st, [])
  | i :: rest =>
      let '(st1, sent1) := serviceSlot st i currentTime (input i) in
      let '(st2, sent2) := serviceSlots st1 rest currentTime input in
      (st2, sent1 ++ sent2)
  end.

Definition loop (st : ServerState) (inp : LoopInput)
    : ServerState * list BrowserEvent :=
  let st1 := monitorMemory st (monitorNow inp) (monitorHeap inp) in
  let st2 :=
    if wrap32 (currentTime inp - lastMemCheck st1) >? 5000
    then setLastMemCheck st1 (currentTime inp) else st1 in
  let st3 :=
    if poll inp && (activeClients st2 <? MAX_CLIENTS) then
      if acceptedAvailable inp then
        snd (addCameraClient st2 (accepted inp) (admitHeap inp) (admitNow inp))
      else st2
    else st2 in
  serviceSlots st3 (seq 0 (Z.to_nat MAX_CLIENTS)) (currentTime inp)
    (slotInput inp).

(** ** Sequences of operations *)

Definition step (st : ServerState) (op : Operation)
    : ServerState * list BrowserEvent :=
  match op with
  | Admit c heap now => (snd (addCameraClient st c heap now), [])
  | Evict index => removeCameraClient st index
  | Monitor now heap => (monitorMemory st now heap, [])
  | Service i t io => serviceSlot st i t io
  | Pass inp => loop st inp
  end.

Fixpoint run (st : ServerState) (ops : list Operation)
    : ServerState * list BrowserEvent :=
  match ops with
  | [] => (st, [])
  | op :: rest =>
      let '(st1, sent1) := step st op in
      let '(st2, sent2) := run st1 rest in
      (st2, sent1 ++ sent2)
  end.

(** ** The slot table *)

(** Settle an integer comparison whose outcome [lia] can tell. *)
Ltac test_is test outcome := replace test with outcome by (symmetry; lia).

Lemma occupied_le_length (slots : list (option CameraClient)) :
  (occupied slots <= length slots)%nat.
Proof. apply length_filter. Qed.

Lemma occupied_cons_Some (c : CameraClient)
    (slots : list (option CameraClient)) :
  occupied (Some c :: slots) = S (occupied slots).
Proof.
  unfold occupied. rewrite filter_cons_True; [reflexivity | by eexists].
Qed.

Lemma occupied_cons_None (slots : list (option CameraClient)) :
  occupied (None :: slots) = occupied slots.
Proof.
  unfold occupied. rewrite filter_cons_False; [reflexivity |].
  intros [x Hx]; discriminate.
Qed.

Lemma occupied_fill (slots : list (option CameraClient)) (i : nat)
    (c : CameraClient) :
  slots !! i = Some None ->
  occupied (<[i := Some c]> slots) = S (occupied slots).
Proof.
  revert i. induction slots as [|s slots IH]; intros [|i] Hi; try discriminate.
  - simpl in Hi. injection Hi as ->.
    simpl. by rewrite occupied_cons_Some, occupied_cons_None.
  - simpl in *. destruct s as [c'|].
    + rewrite !occupied_cons_Some. f_equal. by apply IH.
    + rewrite !occupied_cons_None. by apply IH.
Qed.

Lemma occupied_clear (slots : list (option CameraClient)) (i : nat)
    (c : CameraClient) :
  slots !! i = Some (Some c) ->
  S (occupied (<[i := None]> slots)) = occupied slots.
Proof.
  revert i. induction slots as [|s slots IH]; intros [|i] Hi; try discriminate.
  - simpl in Hi. injection Hi as ->.
    simpl. by rewrite occupied_cons_Some, occupied_cons_None.
  - simpl in *. destruct s as [c'|].
    + rewrite !occupied_cons_Some. f_equal. by apply IH.
    + rewrite !occupied_cons_None. by apply IH.
Qed.

Lemma occupied_update (slots : list (option CameraClient)) (i : nat)
    (c c' : CameraClient) :
  slots !! i = Some (Some c) ->
  occupied (<[i := Some c']> slots) = occupied slots.
Proof.
  revert i. induction slots as [|s slots IH]; intros [|i] Hi; try discriminate.
  - simpl in Hi. injection Hi as ->.
    simpl. by rewrite !occupied_cons_Some.
  - simpl in *. destruct s as [c''|].
    + rewrite !occupied_cons_Some. f_equal. by apply IH.
    + rewrite !occupied_cons_None. by apply IH.
Qed.

Lemma occupied_replicate_None (n : nat) :
  occupied (replicate n (@None CameraClient)) = 0%nat.
Proof.
  induction n as [|n IH]; [reflexivity |].
  simpl. by rewrite occupied_cons_None.
Qed.

Lemma wrap32_small (z : Z) : 0 <= z < 2 ^ 32 -> wrap32 z = z.
Proof. intros H. unfold wrap32. by apply Z.mod_small. Qed.

(** While the counter covers the occupied slots, the cleanup loop
    empties every slot and counts each occupied one off, without
    wrapping. *)
Lemma resetAll_spec (slots : list (option CameraClient)) (active : Z) :
  Z.of_nat (occupied slots) <= active < 2 ^ 32 ->
  resetAll slots active
  = (replicate (length slots) None, active - Z.of_nat (occupied slots)).
Proof.
  revert active. induction slots as [|[c|] slots IH]; intros active Hact.
  - simpl. f_equal. unfold occupied. simpl. lia.
  - rewrite occupied_cons_Some in *. simpl.
    rewrite wrap32_small by lia. rewrite IH by lia.
    f_equal. lia.
  - rewrite occupied_cons_None in *. simpl.
    rewrite IH by lia. reflexivity.
Qed.

Lemma tableInvariant_bounds (st : ServerState) :
  tableInvariant st ->
  0 <= activeClients st <= MAX_CLIENTS.
Proof.
  intros [Hlen Hact]. pose proof (occupied_le_length (camClients st)).
  unfold MAX_CLIENTS in *. lia.
Qed.

Lemma initialState_invariant : tableInvariant initialState.
Proof. split; reflexivity. Qed.

Lemma addCameraClient_invariant st c heap now :
  tableInvariant st -> tableInvariant (snd (addCameraClient st c heap now)).
Proof.
  intros Hinv. pose proof (tableInvariant_bounds st Hinv) as Hb.
  destruct Hinv as [Hlen Hact]. unfold addCameraClient.
  destruct (activeClients st >=? MAX_CLIENTS) eqn:Hfull; [by split |].
  destruct (heap <? MAX_FRAME_SIZE + 1024); [by split |].
  destruct (list_find _ _) as [[i slot]|] eqn:Hfind; [| by split].
  apply list_find_Some in Hfind as (Hi & -> & _).
  apply lookup_take_Some in Hi as [Hi _].
  split; simpl.
  - by rewrite length_insert.
  - rewrite (occupied_fill _ _ _ Hi). rewrite wrap32_small.
    + lia.
    + unfold MAX_CLIENTS in *. lia.
Qed.

Lemma removeCameraClient_invariant st index :
  tableInvariant st -> tableInvariant (fst (removeCameraClient st index)).
Proof.
  intros Hinv. pose proof (tableInvariant_bounds st Hinv) as Hb.
  destruct Hinv as [Hlen Hact]. unfold removeCameraClient.
  destruct (Z.of_nat index <? MAX_CLIENTS); [| by split].
  destruct (camClients st !! index) as [[c|]|] eqn:Hi; [| by split | by split].
  split; simpl.
  - by rewrite length_insert.
  - pose proof (occupied_clear _ _ _ Hi) as Hocc.
    rewrite wrap32_small; unfold MAX_CLIENTS in *; lia.
Qed.

Lemma monitorMemory_invariant st now heap :
  tableInvariant st -> tableInvariant (monitorMemory st now heap).
Proof.
  intros Hinv. pose proof (tableInvariant_bounds st Hinv) as Hb.
  destruct Hinv as [Hlen Hact]. unfold monitorMemory.
  destruct (wrap32 (now - lastCheck st) >? 1000); [| by split].
  destruct (to_int heap <? 10000); [| by split].
  destruct (lowMemCount st + 1 >? 5); [| by split].
  rewrite take_ge, drop_ge by lia.
  rewrite resetAll_spec by (unfold MAX_CLIENTS in *; lia).
  split; simpl.
  - rewrite app_nil_r, length_replicate. exact Hlen.
  - rewrite app_nil_r, occupied_replicate_None. lia.
Qed.

Lemma setFrameBuffer_invariant st fb :
  tableInvariant st -> tableInvariant (setFrameBuffer st fb).
Proof. intros [Hlen Hact]. by split. Qed.

Lemma update_slot_invariant st i c c' :
  tableInvariant st ->
  camClients st !! i = Some (Some c) ->
  tableInvariant
    (setClients st (<[i := Some c']> (camClients st)) (activeClients st)).
Proof.
  intros [Hlen Hact] Hi. split; simpl.
  - by rewrite length_insert.
  - by rewrite (occupied_update _ _ _ _ Hi).
Qed.

Lemma serviceSlot_invariant st i t io :
  tableInvariant st -> tableInvariant (fst (serviceSlot st i t io)).
Proof.
  intros Hinv. unfold serviceSlot.
  destruct (camClients st !! i) as [[c|]|] eqn:Hi; try exact Hinv.
  destruct (handleWebSocketMessage c (frameBuffer st) io)
    as [[[ok c1] fb1] sent].
  pose proof (update_slot_invariant st i c c1 Hinv Hi) as Hinv1.
  apply (setFrameBuffer_invariant _ fb1) in Hinv1.
  assert (Hi1 : camClients
            (setFrameBuffer
               (setClients st (<[i := Some c1]> (camClients st))
                  (activeClients st)) fb1) !! i = Some (Some c1)).
  { simpl. apply list_lookup_insert_eq. by eapply lookup_lt_Some. }
  destruct ok.
  - simpl. eapply update_slot_invariant in Hinv1; [| exact Hi1]. exact Hinv1.
  - destruct (wrap32 (t - lastActivity c1) >? CLIENT_TIMEOUT).
    + pose proof (removeCameraClient_invariant _ i Hinv1) as Hrm.
      destruct (removeCameraClient _ i) as [st2 notice]. exact Hrm.
    + exact Hinv1.
Qed.

Lemma serviceSlots_invariant indices st t input :
  tableInvariant st -> tableInvariant (fst (serviceSlots st indices t input)).
Proof.
  revert st. induction indices as [|i rest IH]; intros st Hinv; [exact Hinv |].
  simpl. pose proof (serviceSlot_invariant st i t (input i) Hinv) as H1.
  destruct (serviceSlot st i t (input i)) as [st1 sent1].
  specialize (IH st1 H1).
  destruct (serviceSlots st1 rest t input) as [st2 sent2]. exact IH.
Qed.

Lemma loop_invariant st inp :
  tableInvariant st -> tableInvariant (fst (loop st inp)).
Proof.
  intros Hinv. unfold loop. apply serviceSlots_invariant.
  pose proof
    (monitorMemory_invariant st (monitorNow inp) (monitorHeap inp) Hinv) as H1.
  set (st1 := monitorMemory st (monitorNow inp) (monitorHeap inp)) in *.
  assert (H2 : tableInvariant
    (if wrap32 (currentTime inp - lastMemCheck st1) >? 5000
     then setLastMemCheck st1 (currentTime inp) else st1)).
  { destruct (_ >? _); [| exact H1]. destruct H1. by split. }
  destruct (poll inp && _); [| exact H2].
  destruct (acceptedAvailable inp); [| exact H2].
  by apply addCameraClient_invariant.
Qed.

Lemma step_invariant st op :
  tableInvariant st -> tableInvariant (fst (step st op)).
Proof.
  intros Hinv. destruct op; simpl.
  - by apply addCameraClient_invariant.
  - by apply removeCameraClient_invariant.
  - by apply monitorMemory_invariant.
  - by apply serviceSlot_invariant.
  - by apply loop_invariant.
Qed.

Lemma run_invariant ops st :
  tableInvariant st -> tableInvariant (fst (run st ops)).
Proof.
  revert st. induction ops as [|op rest IH]; intros st Hinv; [exact Hinv |].
  simpl. pose proof (step_invariant st op Hinv) as H1.
  destruct (step st op) as [st1 sent1]. specialize (IH st1 H1).
  destruct (run st1 rest) as [st2 sent2]. exact IH.
Qed.

(** With every slot occupied, admission is refused and nothing moves. *)
Lemma addCameraClient_full st c heap now :
  tableInvariant st ->
  occupied (camClients st) = Z.to_nat MAX_CLIENTS ->
  addCameraClient st c heap now = (false, st).
Proof.
  intros [Hlen Hact] Hfull. unfold addCameraClient.
  rewrite Hact, Hfull.
  replace (Z.of_nat (Z.to_nat MAX_CLIENTS) >=? MAX_CLIENTS) with true
    by reflexivity.
  reflexivity.
Qed.

(** A successful admission fills the first empty slot. *)
Lemma addCameraClient_success st c heap now st' :
  tableInvariant st ->
  addCameraClient st c heap now = (true, st') ->
  exists i : nat,
    camClients st !! i = Some None
    /\ (forall j : nat, (j < i)%nat -> is_Some (camClients st !! j)
          /\ camClients st !! j <> Some None)
    /\ camClients st'
       = <[i := Some (mkCameraClient c (-1) now)]> (camClients st)
    /\ activeClients st' = activeClients st + 1
    /\ MAX_FRAME_SIZE + 1024 <= heap.
Proof.
  intros Hinv Hadd. pose proof (tableInvariant_bounds st Hinv) as Hb.
  destruct Hinv as [Hlen Hact]. unfold addCameraClient in Hadd.
  destruct (activeClients st >=? MAX_CLIENTS) eqn:Hfull; [discriminate |].
  destruct (heap <? MAX_FRAME_SIZE + 1024) eqn:Hheap; [discriminate |].
  destruct (list_find _ _) as [[i slot]|] eqn:Hfind; [| discriminate].
  injection Hadd as <-.
  apply list_find_Some in Hfind as (Hi & -> & Hbefore).
  apply lookup_take_Some in Hi as [Hi Hlt].
  exists i. repeat split; simpl; try done.
  - apply lookup_lt_is_Some. apply lookup_lt_Some in Hi. lia.
  - intros Hj. eapply (Hbefore j None); [| lia | reflexivity].
    apply lookup_take_Some. split; [exact Hj | lia].
  - apply wrap32_small. unfold MAX_CLIENTS in *. lia.
  - lia.
Qed.

(** C3.  Whatever sequence of admissions, evictions, memory checks,
    slot turns and whole passes has run from the initial state, at most
    [MAX_CLIENTS] = 2 slots are occupied and [activeClients] is their
    number; an admission attempted while every slot is occupied returns
    false and leaves the whole state as it was; an admission that
    succeeds puts the connection into the first empty slot, with
    identity -1 (unset) and the current [millis()] as its activity time,
    and raises the count by one. *)
Theorem C3_admission_bounded_by_capacity (ops : list Operation) :
  let st := fst (run initialState ops) in
  (occupied (camClients st) <= Z.to_nat MAX_CLIENTS)%nat
  /\ activeClients st = Z.of_nat (occupied (camClients st))
  /\ (forall c heap now,
        occupied (camClients st) = Z.to_nat MAX_CLIENTS ->
        addCameraClient st c heap now = (false, st))
  /\ (forall c heap now st',
        addCameraClient st c heap now = (true, st') ->
        exists i : nat,
          camClients st !! i = Some None
          /\ (forall j : nat, (j < i)%nat ->
                is_Some (camClients st !! j)
                /\ camClients st !! j <> Some None)
          /\ camClients st'
             = <[i := Some (mkCameraClient c (-1) now)]> (camClients st)
          /\ occupied (camClients st') = S (occupied (camClients st))
          /\ activeClients st' = activeClients st + 1).
Proof.
  intros st.
  assert (Hinv : tableInvariant st)
    by (apply run_invariant, initialState_invariant).
  split; [| split; [| split]].
  - destruct Hinv as [Hlen _]. rewrite <- Hlen. apply occupied_le_length.
  - apply Hinv.
  - intros c heap now Hfull. by apply addCameraClient_full.
  - intros c heap now st' Hadd.
    destruct (addCameraClient_success st c heap now st' Hinv Hadd)
      as (i & Hi & Hbefore & Hslots & Hact & _).
    exists i. repeat split; try done.
    + by apply Hbefore.
    + by apply Hbefore.
    + rewrite Hslots. by apply occupied_fill.
Qed.

(** ** The memory monitor *)

Lemma monitorMemory_not_due st now heap :
  sampleDue st now = false -> monitorMemory st now heap = st.
Proof. unfold sampleDue, monitorMemory. by intros ->. Qed.

Lemma forcedReset_not_due st now heap :
  sampleDue st now = false -> forcedReset st now heap = false.
Proof. unfold sampleDue, forcedReset. by intros ->. Qed.

(** The counter after a call that takes a sample. *)
Lemma monitorMemory_count st now heap :
  sampleDue st now = true ->
  lowMemCount (monitorMemory st now heap)
  = (if to_int heap <? 10000
     then if lowMemCount st + 1 >? 5 then 0 else lowMemCount st + 1
     else 0)
  /\ forcedReset st now heap
     = (to_int heap <? 10000) && (lowMemCount st + 1 >? 5).
Proof.
  unfold sampleDue, monitorMemory, forcedReset. intros ->.
  destruct (to_int heap <? 10000); [| by split].
  destruct (lowMemCount st + 1 >? 5); [| by split].
  destruct (resetAll _ _) as [slots active]. by split.
Qed.

(** The cleanup block runs exactly when [forcedReset] holds: then every
    slot is emptied, otherwise the table is untouched. *)
Lemma monitorMemory_slots st now heap :
  tableInvariant st ->
  if forcedReset st now heap
  then camClients (monitorMemory st now heap)
         = replicate (Z.to_nat MAX_CLIENTS) None
       /\ activeClients (monitorMemory st now heap) = 0
  else camClients (monitorMemory st now heap) = camClients st
       /\ activeClients (monitorMemory st now heap) = activeClients st.
Proof.
  intros Hinv. pose proof (tableInvariant_bounds st Hinv) as Hb.
  destruct Hinv as [Hlen Hact]. unfold forcedReset, monitorMemory.
  destruct (wrap32 (now - lastCheck st) >? 1000); [| by split].
  destruct (to_int heap <? 10000); [| by split].
  destruct (lowMemCount st + 1 >? 5); [| by split].
  simpl. rewrite take_ge, drop_ge by lia.
  rewrite resetAll_spec by (unfold MAX_CLIENTS in *; lia).
  simpl. rewrite app_nil_r, Hlen. split; [reflexivity | lia].
Qed.

Lemma monitorMemory_count_range st now heap :
  0 <= lowMemCount st <= 5 ->
  0 <= lowMemCount (monitorMemory st now heap) <= 5.
Proof.
  intros Hc. destruct (sampleDue st now) eqn:Hdue.
  - destruct (monitorMemory_count st now heap Hdue) as [-> _].
    destruct (to_int heap <? 10000); [| lia].
    destruct (lowMemCount st + 1 >? 5) eqn:Hgt; lia.
  - by rewrite monitorMemory_not_due.
Qed.

(** A sample on which the cleanup ran is the last of six low samples in
    a row (fewer when the counter started above 0), none of which ran
    the cleanup before. *)
Lemma sampleLog_fired calls : forall st (k : nat) h,
  0 <= lowMemCount st <= 5 ->
  sampleLog st calls !! k = Some (h, true) ->
  5 - lowMemCount st <= Z.of_nat k
  /\ forall j : nat, (j <= k)%nat -> (k <= j + 5)%nat ->
       exists hj fj,
         sampleLog st calls !! j = Some (hj, fj)
         /\ hj < 10000 /\ ((j < k)%nat -> fj = false).
Proof.
  induction calls as [|[now heap] rest IH]; intros st k h Hc Hk;
    [discriminate |].
  simpl in Hk |- *.
  pose proof (monitorMemory_count_range st now heap Hc) as Hc'.
  destruct (sampleDue st now) eqn:Hdue.
  2:{ rewrite (monitorMemory_not_due st now heap Hdue) in *.
      by apply (IH st k h). }
  destruct (monitorMemory_count st now heap Hdue) as [Hcount Hfire].
  destruct k as [|k].
  - simpl in Hk. injection Hk as <- Hf. rewrite Hfire in Hf.
    apply andb_true_iff in Hf as [Hlow Hgt].
    split; [lia |].
    intros j Hj _. assert (j = 0%nat) as -> by lia.
    eexists _, _. split; [reflexivity |]. split; lia.
  - simpl in Hk. destruct (IH _ _ _ Hc' Hk) as [Hlen Hprev].
    assert (Hstep : lowMemCount (monitorMemory st now heap)
                    <= lowMemCount st + 1).
    { rewrite Hcount. destruct (to_int heap <? 10000); [| lia].
      destruct (lowMemCount st + 1 >? 5); lia. }
    split; [lia |].
    intros [|j] Hj Hwin.
    + eexists _, _. split; [reflexivity |].
      assert (Hpos : 1 <= lowMemCount (monitorMemory st now heap)) by lia.
      rewrite Hcount in Hpos. rewrite Hfire.
      destruct (to_int heap <? 10000) eqn:Hlow; [| lia].
      destruct (lowMemCount st + 1 >? 5) eqn:Hgt; [lia |].
      split; [lia | reflexivity].
    + destruct (Hprev j) as (hj & fj & Hlk & Hlo & Hnf); [lia | lia |].
      exists hj, fj. split; [exact Hlk |]. split; [exact Hlo |].
      intros Hlt. apply Hnf. lia.
Qed.

(** C4.  Over any sequence of calls of [monitorMemory] that starts
    with the counter at 0: a sample on which the forced reset runs is
    preceded by five samples, and it and the five before it are all
    below 10000 and consecutive, with no reset among the five; a sample
    that is not low puts the counter back to 0 and runs no reset; a
    reset leaves the counter at 0, so the call right after it runs no
    reset whatever it reads; and the slots are emptied exactly on the
    calls where the reset runs. *)
Theorem C4_forced_reset_after_sustained_low_memory :
  (forall st calls (k : nat) h,
     lowMemCount st = 0 ->
     sampleLog st calls !! k = Some (h, true) ->
     (5 <= k)%nat
     /\ forall j : nat, (k - 5 <= j <= k)%nat ->
          exists hj fj,
            sampleLog st calls !! j = Some (hj, fj)
            /\ hj < 10000 /\ ((j < k)%nat -> fj = false))
  /\ (forall st now heap,
        sampleDue st now = true ->
        10000 <= to_int heap ->
        lowMemCount (monitorMemory st now heap) = 0
        /\ forcedReset st now heap = false)
  /\ (forall st now heap now' heap',
        forcedReset st now heap = true ->
        lowMemCount (monitorMemory st now heap) = 0
        /\ forcedReset (monitorMemory st now heap) now' heap' = false)
  /\ (forall st now heap,
        tableInvariant st ->
        if forcedReset st now heap
        then camClients (monitorMemory st now heap)
             = replicate (Z.to_nat MAX_CLIENTS) None
        else camClients (monitorMemory st now heap) = camClients st).
Proof.
  split; [| split; [| split]].
  - intros st calls k h Hc Hk.
    destruct (sampleLog_fired calls st k h) as [Hlen Hprev];
      [lia | exact Hk |].
    split; [lia |]. intros j [Hlo Hhi]. apply Hprev; lia.
  - intros st now heap Hdue Hok.
    destruct (monitorMemory_count st now heap Hdue) as [Hcount Hfire].
    rewrite Hcount, Hfire.
    assert (Hlow : (to_int heap <? 10000) = false) by lia.
    rewrite Hlow. by split.
  - intros st now heap now' heap' Hfire.
    assert (Hdue : sampleDue st now = true).
    { unfold forcedReset, sampleDue in *.
      destruct (wrap32 (now - lastCheck st) >? 1000); [reflexivity |].
      discriminate. }
    destruct (monitorMemory_count st now heap Hdue) as [Hcount Hf].
    rewrite Hf in Hfire. apply andb_true_iff in Hfire as [Hlow Hgt].
    rewrite Hlow, Hgt in Hcount.
    split; [exact Hcount |].
    unfold forcedReset at 1. rewrite Hcount.
    replace (0 + 1 >? 5) with false by reflexivity.
    apply andb_false_r.
  - intros st now heap Hinv.
    pose proof (monitorMemory_slots st now heap Hinv) as H.
    destruct (forcedReset st now heap); apply H.
Qed.

(** ** Frame forwarding *)

Lemma forwardChunks_step data len offset :
  forwardChunks data len offset
  = if offset <? len
    then binaryAll (bytesAt data offset (Z.min CHUNK_SIZE (len - offset)))
           :: forwardChunks data len (offset + CHUNK_SIZE)
    else [].
Proof.
  rewrite forwardChunks_equation_1.
  destruct (Z_lt_dec offset len) as [Hlt|Hge]; simpl.
  - by test_is (offset <? len) true.
  - by test_is (offset <? len) false.
Qed.

Lemma chunkCount_ceiling len :
  (chunkCount len - 1) * CHUNK_SIZE < len <= chunkCount len * CHUNK_SIZE.
Proof.
  unfold chunkCount, CHUNK_SIZE.
  pose proof (Z.div_mod (len + 8192 - 1) 8192).
  pose proof (Z.mod_pos_bound (len + 8192 - 1) 8192). lia.
Qed.

Lemma chunkCount_next len :
  0 < len -> chunkCount len = chunkCount (len - CHUNK_SIZE) + 1.
Proof.
  intros _. unfold chunkCount, CHUNK_SIZE.
  replace (len + 8192 - 1) with (len - 8192 + 8192 - 1 + 1 * 8192) by lia.
  rewrite Z.div_add by lia. reflexivity.
Qed.

(** The loop sends, for k = 0, 1, ... below the chunk count, the bytes
    at [offset + k * CHUNK_SIZE]. *)
Lemma forwardChunks_closed_form (n : nat) : forall data len offset,
  Z.to_nat (chunkCount (len - offset)) = n ->
  forwardChunks data len offset
  = map (fun k : nat =>
           binaryAll
             (bytesAt data (offset + Z.of_nat k * CHUNK_SIZE)
                (Z.min CHUNK_SIZE (len - (offset + Z.of_nat k * CHUNK_SIZE)))))
      (seq 0 n).
Proof.
  induction n as [|n IH]; intros data len offset Hn;
    pose proof (chunkCount_ceiling (len - offset)) as Hceil;
    rewrite forwardChunks_step.
  - assert (Hge : (offset <? len) = false)
      by (unfold CHUNK_SIZE in *; lia).
    by rewrite Hge.
  - assert (Hlt : (offset <? len) = true)
      by (unfold CHUNK_SIZE in *; lia).
    rewrite Hlt. rewrite <- cons_seq, <- fmap_S_seq. cbn [map].
    f_equal.
    + f_equal. f_equal; [| f_equal]; lia.
    + rewrite (IH data len (offset + CHUNK_SIZE)).
      * rewrite map_map. apply map_ext. intros k.
        f_equal. f_equal; [| f_equal]; lia.
      * rewrite (chunkCount_next (len - offset)) in Hn by lia.
        replace (len - (offset + CHUNK_SIZE)) with (len - offset - CHUNK_SIZE)
          by lia.
        pose proof (chunkCount_ceiling (len - offset - CHUNK_SIZE)).
        unfold CHUNK_SIZE in *. lia.
Qed.

(** Cutting a list into pieces of [size] elements and gluing the pieces
    gives the list back. *)
Lemma concat_pieces {A} (size : nat) (n : nat) : forall l : list A,
  (0 < size)%nat ->
  (length l <= n * size)%nat ->
  concat (map (fun k : nat => take size (drop (k * size) l)) (seq 0 n)) = l.
Proof.
  induction n as [|n IH]; intros l Hsize Hlen.
  - destruct l; [reflexivity | simpl in Hlen; lia].
  - rewrite <- cons_seq, <- fmap_S_seq. cbn [map concat].
    rewrite map_map.
    rewrite (map_ext _
               (fun k : nat => take size (drop (k * size) (drop size l)))).
    + rewrite IH; [| exact Hsize | rewrite length_drop; lia].
      rewrite Nat.mul_0_l, drop_0. apply take_drop.
    + intros k. rewrite drop_drop. reflexivity.
Qed.

(** The chunk read from the buffer lies within the copied frame. *)
Lemma bytesAt_frame (payload rest : list byte) (k : nat) :
  let len := Z.of_nat (length payload) in
  Z.of_nat k * CHUNK_SIZE < len ->
  bytesAt (payload ++ rest) (0 + Z.of_nat k * CHUNK_SIZE)
    (Z.min CHUNK_SIZE (len - (0 + Z.of_nat k * CHUNK_SIZE)))
  = take (Z.to_nat CHUNK_SIZE) (drop (k * Z.to_nat CHUNK_SIZE) payload).
Proof.
  intros len Hk. unfold bytesAt.
  replace (Z.to_nat (0 + Z.of_nat k * CHUNK_SIZE))
    with (k * Z.to_nat CHUNK_SIZE)%nat by (unfold CHUNK_SIZE; lia).
  assert (Hle : (k * Z.to_nat CHUNK_SIZE <= length payload)%nat)
    by (unfold CHUNK_SIZE in *; lia).
  rewrite drop_app_le by exact Hle.
  set (tail := drop (k * Z.to_nat CHUNK_SIZE) payload).
  assert (Htail : length tail = (length payload - k * Z.to_nat CHUNK_SIZE)%nat)
    by apply length_drop.
  destruct (Z_le_gt_dec CHUNK_SIZE (len - (0 + Z.of_nat k * CHUNK_SIZE)))
    as [Hfull|Hshort].
  - rewrite Z.min_l by exact Hfull.
    apply take_app_le. unfold CHUNK_SIZE in *. lia.
  - rewrite Z.min_r by lia.
    replace (Z.to_nat (len - (0 + Z.of_nat k * CHUNK_SIZE)))
      with (length tail) by (unfold CHUNK_SIZE in *; lia).
    rewrite take_app_length.
    symmetry. apply take_ge. unfold CHUNK_SIZE in *. lia.
Qed.

Lemma framePieces_forward (payload rest : list byte) :
  forwardChunks (payload ++ rest) (Z.of_nat (length payload)) 0
  = map binaryAll (framePieces payload).
Proof.
  rewrite (forwardChunks_closed_form _ _ _ 0 eq_refl).
  unfold framePieces. rewrite map_map, Z.sub_0_r.
  apply map_ext_in. intros k Hk. apply in_seq in Hk. f_equal.
  apply bytesAt_frame.
  pose proof (chunkCount_ceiling (Z.of_nat (length payload))).
  unfold CHUNK_SIZE in *. nia.
Qed.

Lemma framePieces_concat (payload : list byte) :
  concat (framePieces payload) = payload.
Proof.
  unfold framePieces. apply concat_pieces.
  - unfold CHUNK_SIZE. lia.
  - pose proof (chunkCount_ceiling (Z.of_nat (length payload))).
    unfold CHUNK_SIZE in *. nia.
Qed.

Lemma framePieces_sizes (payload : list byte) (k : nat) (piece : list byte) :
  framePieces payload !! k = Some piece ->
  piece = take (Z.to_nat CHUNK_SIZE) (drop (k * Z.to_nat CHUNK_SIZE) payload)
  /\ (0 < length piece <= Z.to_nat CHUNK_SIZE)%nat
  /\ ((S k < length (framePieces payload))%nat ->
      length piece = Z.to_nat CHUNK_SIZE).
Proof.
  unfold framePieces. intros Hk.
  rewrite length_map, length_seq.
  apply list_lookup_fmap_Some in Hk as (k' & -> & Hk').
  apply lookup_seq in Hk' as [-> Hlt]. simpl.
  pose proof (chunkCount_ceiling (Z.of_nat (length payload))) as Hceil.
  split; [reflexivity |].
  rewrite length_take, length_drop.
  unfold CHUNK_SIZE in *. split; [nia | nia].
Qed.

(** ** The message pump *)

Lemma memcpy_frame (dst payload : list byte) :
  memcpy dst payload (Z.of_nat (length payload))
  = payload ++ drop (length payload) dst.
Proof.
  unfold memcpy. rewrite Nat2Z.id. by rewrite firstn_all.
Qed.

Lemma retag_spec c (payload rest : list byte) :
  let len := Z.of_nat (length payload) in
  let tag := frameTag payload in
  retag c (StaticFrameBuffer.mk (payload ++ rest) len)
  = if (len >? 12) && ((tag =? 1) || (tag =? 2)) && negb (cameraId c =? tag)
    then (mkCameraClient (client c) tag (lastActivity c),
          [textAll (statusMsg (cameraId c) "disconnected");
           textAll (statusMsg tag "connected")])
    else (c, []).
Proof.
  intros len tag. unfold retag. simpl.
  destruct (len >? 12) eqn:Hlen; [| reflexivity].
  assert (Hlk : (payload ++ rest) !! 12%nat = payload !! 12%nat).
  { apply lookup_app_l. lia. }
  rewrite Hlk. fold (frameTag payload). fold tag.
  destruct ((tag =? 1) || (tag =? 2)); [| reflexivity].
  destruct (cameraId c =? tag); reflexivity.
Qed.

(** An accepted binary frame: what the call returns. *)
Lemma handle_binary c fb io payload :
  available io = true ->
  MAX_FRAME_SIZE + 1024 <= freeHeap io ->
  message io = BinaryMessage payload ->
  Z.of_nat (length payload) <= MAX_FRAME_SIZE ->
  let fb1 :=
    StaticFrameBuffer.mk
      (payload ++ drop (length payload) (StaticFrameBuffer.data fb))
      (Z.of_nat (length payload)) in
  handleWebSocketMessage c fb io
  = (true, fst (retag c fb1), fb1,
     snd (retag c fb1) ++ map binaryAll (framePieces payload)).
Proof.
  intros Hav Hheap Hmsg Hlen fb1. unfold handleWebSocketMessage.
  rewrite Hav, Hmsg. simpl.
  test_is (freeHeap io <? MAX_FRAME_SIZE + 1024) false.
  test_is (Z.of_nat (length payload) >? MAX_FRAME_SIZE) false.
  replace (Z.of_nat (length payload) <=? StaticFrameBuffer.SIZE) with true
    by (symmetry; unfold StaticFrameBuffer.SIZE; lia).
  rewrite memcpy_frame. fold fb1.
  destruct (retag c fb1) as [c1 status]. simpl.
  by rewrite framePieces_forward.
Qed.

(** Calls that return before any effect. *)
Lemma handle_rejected c fb io :
  available io = false
  \/ freeHeap io < MAX_FRAME_SIZE + 1024
  \/ message io = ControlMessage
  \/ (exists payload, message io = BinaryMessage payload
        /\ MAX_FRAME_SIZE < Z.of_nat (length payload)) ->
  handleWebSocketMessage c fb io = (false, c, fb, []).
Proof.
  unfold handleWebSocketMessage.
  intros [Hav | [Hheap | [Hmsg | (payload & Hmsg & Hlen)]]].
  - by rewrite Hav.
  - destruct (negb (available io)); [reflexivity |].
    by test_is (freeHeap io <? MAX_FRAME_SIZE + 1024) true.
  - destruct (negb (available io)); [reflexivity |].
    destruct (freeHeap io <? MAX_FRAME_SIZE + 1024); [reflexivity |].
    by rewrite Hmsg.
  - destruct (negb (available io)); [reflexivity |].
    destruct (freeHeap io <? MAX_FRAME_SIZE + 1024); [reflexivity |].
    rewrite Hmsg.
    by test_is (Z.of_nat (length payload) >? MAX_FRAME_SIZE) true.
Qed.

(** A text message: what the call returns. *)
Lemma handle_text c fb io data :
  available io = true ->
  MAX_FRAME_SIZE + 1024 <= freeHeap io ->
  message io = TextMessage data ->
  handleWebSocketMessage c fb io
  = (true, c, fb,
     if indexOf data motionPattern >=? 0
     then [textAll (serializeJson
                      (setMember (deserializeJson data) "camera"
                         (JInt (cameraId c))))]
     else []).
Proof.
  intros Hav Hheap Hmsg. unfold handleWebSocketMessage.
  rewrite Hav, Hmsg. simpl.
  test_is (freeHeap io <? MAX_FRAME_SIZE + 1024) false.
  by destruct (indexOf data motionPattern >=? 0).
Qed.

(** Every call either is rejected or falls under one of the two cases
    above. *)
Lemma handle_cases c fb io :
  handleWebSocketMessage c fb io = (false, c, fb, [])
  \/ (available io = true /\ MAX_FRAME_SIZE + 1024 <= freeHeap io
      /\ ((exists data, message io = TextMessage data)
          \/ (exists payload, message io = BinaryMessage payload
                /\ Z.of_nat (length payload) <= MAX_FRAME_SIZE))).
Proof.
  destruct (available io) eqn:Hav;
    [| left; apply handle_rejected; by left].
  destruct (Z_lt_dec (freeHeap io) (MAX_FRAME_SIZE + 1024)) as [Hlow|Hok];
    [left; apply handle_rejected; right; by left |].
  destruct (message io) as [data|payload|] eqn:Hmsg.
  - right. repeat split; [lia |]. left. by exists data.
  - destruct (Z_lt_dec MAX_FRAME_SIZE (Z.of_nat (length payload)))
      as [Hbig|Hfit].
    + left. apply handle_rejected. do 3 right. by exists payload.
    + right. repeat split; [lia |]. right. exists payload. split; [done | lia].
  - left. apply handle_rejected. right; right; by left.
Qed.

(** C1, as the code has it.  For an accepted binary frame (a message is
    pending, the heap reading is at least [MAX_FRAME_SIZE + 1024], the
    length is above 12 and at most [MAX_FRAME_SIZE]) whose byte 12 is 1
    or 2 and differs from the slot's identity, the call sends exactly
    one "disconnected" status carrying the identity the slot had (the
    value -1 when none was assigned), then exactly one "connected"
    status carrying the tag, then the chunks of the frame, and the slot
    takes the tag as its identity.  While a binary message is handled, a
    text broadcast is made only under these conditions. *)
Theorem C1_identity_change_status_events c fb io payload :
  message io = BinaryMessage payload ->
  let len := Z.of_nat (length payload) in
  let tag := frameTag payload in
  (available io = true ->
   MAX_FRAME_SIZE + 1024 <= freeHeap io ->
   12 < len <= MAX_FRAME_SIZE ->
   tag = 1 \/ tag = 2 ->
   tag <> cameraId c ->
   exists fb',
     handleWebSocketMessage c fb io
     = (true, mkCameraClient (client c) tag (lastActivity c), fb',
        [textAll (statusMsg (cameraId c) "disconnected");
         textAll (statusMsg tag "connected")]
        ++ map binaryAll (framePieces payload)))
  /\ (forall s,
        In (textAll s) (snd (handleWebSocketMessage c fb io)) ->
        available io = true
        /\ MAX_FRAME_SIZE + 1024 <= freeHeap io
        /\ 12 < len <= MAX_FRAME_SIZE
        /\ (tag = 1 \/ tag = 2)
        /\ tag <> cameraId c).
Proof.
  intros Hmsg len tag. split.
  - intros Hav Hheap Hlen Htag Hnew.
    rewrite (handle_binary c fb io payload Hav Hheap Hmsg) by lia.
    rewrite retag_spec. fold len tag.
    test_is (len >? 12) true.
    replace ((tag =? 1) || (tag =? 2)) with true
      by (symmetry; apply orb_true_iff; lia).
    test_is (cameraId c =? tag) false.
    simpl. eexists. reflexivity.
  - intros s Hin.
    destruct (handle_cases c fb io)
      as [Hrej | (Hav & Hheap & [[data Hd] | (payload' & Hp & Hfit)])].
    + rewrite Hrej in Hin. destruct Hin.
    + congruence.
    + rewrite Hmsg in Hp. injection Hp as <-.
      rewrite (handle_binary c fb io payload Hav Hheap Hmsg Hfit) in Hin.
      simpl in Hin. rewrite retag_spec in Hin. fold len tag in Hin.
      apply in_app_iff in Hin as [Hin | Hin].
      2:{ apply in_map_iff in Hin as (piece & Hpiece & _). discriminate. }
      destruct ((len >? 12) && ((tag =? 1) || (tag =? 2))
                && negb (cameraId c =? tag)) eqn:Hcond; [| destruct Hin].
      apply andb_true_iff in Hcond as [Hcond Hneq].
      apply andb_true_iff in Hcond as [Hlen Htag].
      apply orb_true_iff in Htag. apply negb_true_iff in Hneq.
      repeat split; try done; try lia.
Qed.


(** C7.  For an accepted binary frame of L bytes, 0 < L <=
    [MAX_FRAME_SIZE], the call sends, after the status messages of a
    possible identity change, exactly ceil (L / 8192) binary chunks;
    chunk k carries the bytes from offset k * 8192 on, so the chunks go
    by increasing offset; every chunk but the last has 8192 bytes and
    the last has between 1 and 8192; and the chunks glued together in
    send order are the frame. *)
Theorem C7_frame_forwarded_in_ordered_chunks c fb io payload :
  available io = true ->
  MAX_FRAME_SIZE + 1024 <= freeHeap io ->
  message io = BinaryMessage payload ->
  0 < Z.of_nat (length payload) <= MAX_FRAME_SIZE ->
  exists c' fb' status chunks,
    handleWebSocketMessage c fb io
    = (true, c', fb', status ++ map binaryAll chunks)
    /\ Forall (fun e => isText e = true) status
    /\ Z.of_nat (length chunks) = chunkCount (Z.of_nat (length payload))
    /\ (chunkCount (Z.of_nat (length payload)) - 1) * CHUNK_SIZE
       < Z.of_nat (length payload)
       <= chunkCount (Z.of_nat (length payload)) * CHUNK_SIZE
    /\ (forall (k : nat) chunk,
          chunks !! k = Some chunk ->
          chunk = take (Z.to_nat CHUNK_SIZE)
                    (drop (k * Z.to_nat CHUNK_SIZE) payload)
          /\ (0 < length chunk <= Z.to_nat CHUNK_SIZE)%nat
          /\ ((S k < length chunks)%nat ->
              length chunk = Z.to_nat CHUNK_SIZE))
    /\ concat chunks = payload.
Proof.
  intros Hav Hheap Hmsg Hlen.
  rewrite (handle_binary c fb io payload Hav Hheap Hmsg) by lia.
  eexists _, _, _, (framePieces payload). split; [reflexivity |].
  split; [| split; [| split; [| split]]].
  - rewrite retag_spec.
    destruct (_ && _); repeat constructor.
  - unfold framePieces. rewrite length_map, length_seq.
    pose proof (chunkCount_ceiling (Z.of_nat (length payload))).
    unfold CHUNK_SIZE in *. lia.
  - apply chunkCount_ceiling.
  - apply framePieces_sizes.
  - apply framePieces_concat.
Qed.

(** ** Eviction *)

(** C8, as the code has it.  Evicting an occupied slot sends exactly one
    "disconnected" status carrying the identity value of the slot,
    whatever it is (-1 for a slot that never got an identity), empties
    the slot and lowers the count by one; evicting an empty slot, or an
    index outside the table, changes nothing and sends nothing; hence a
    second eviction of the same slot is silent. *)
Theorem C8_eviction_notifies_with_slot_identity st (index : nat) :
  tableInvariant st ->
  (forall c,
     camClients st !! index = Some (Some c) ->
     removeCameraClient st index
     = (setClients st (<[index := None]> (camClients st))
          (activeClients st - 1),
        [textAll (statusMsg (cameraId c) "disconnected")]))
  /\ (camClients st !! index = Some None \/ camClients st !! index = None ->
      removeCameraClient st index = (st, []))
  /\ removeCameraClient (fst (removeCameraClient st index)) index
     = (fst (removeCameraClient st index), []).
Proof.
  intros Hinv. pose proof (tableInvariant_bounds st Hinv) as Hb.
  assert (Hocc : forall c,
            camClients st !! index = Some (Some c) ->
            removeCameraClient st index
            = (setClients st (<[index := None]> (camClients st))
                 (activeClients st - 1),
               [textAll (statusMsg (cameraId c) "disconnected")])).
  { intros c Hi. destruct Hinv as [Hlen Hact]. unfold removeCameraClient.
    pose proof (lookup_lt_Some _ _ _ Hi) as Hlt.
    replace (Z.of_nat index <? MAX_CLIENTS) with true
      by (symmetry; unfold MAX_CLIENTS in *; lia).
    rewrite Hi. pose proof (occupied_clear _ _ _ Hi).
    rewrite wrap32_small by (unfold MAX_CLIENTS in *; lia). reflexivity. }
  assert (Hempty : forall st',
            camClients st' !! index = Some None
            \/ camClients st' !! index = None ->
            removeCameraClient st' index = (st', [])).
  { intros st' Hi. unfold removeCameraClient.
    destruct (Z.of_nat index <? MAX_CLIENTS); [| reflexivity].
    by destruct Hi as [-> | ->]. }
  split; [exact Hocc |]. split; [apply Hempty |].
  destruct (camClients st !! index) as [[c|]|] eqn:Hi.
  - rewrite (Hocc c eq_refl). simpl. apply Hempty. left. simpl.
    apply list_lookup_insert_eq. by eapply lookup_lt_Some.
  - rewrite (Hempty st) by (by left). simpl. apply Hempty. by left.
  - rewrite (Hempty st) by (by right). simpl. apply Hempty. by right.
Qed.

(** ** Text messages *)

Lemma lookupMember_assignMember key value members :
  lookupMember key (assignMember key value members) = Some value.
Proof.
  induction members as [|[k v] rest IH]; simpl.
  - by rewrite String.eqb_refl.
  - destruct (String.eqb k key) eqn:Hk; simpl; by rewrite Hk.
Qed.

Lemma getMember_setMember doc key value :
  doc = JNull \/ (exists members, doc = JObject members) ->
  getMember (setMember doc key value) key = Some value.
Proof.
  intros [-> | [members ->]]; simpl.
  - by rewrite String.eqb_refl.
  - apply lookupMember_assignMember.
Qed.

Lemma sameExceptCamera_assign value : forall m1 m2,
  sameExceptCamera m1 m2 ->
  assignMember "camera" value m1 = assignMember "camera" value m2.
Proof.
  induction m1 as [|[k1 v1] r1 IH]; intros [|[k2 v2] r2] Hsame;
    simpl in Hsame; try done.
  destruct Hsame as [<- Hrest]. simpl.
  destruct (String.eqb k1 "camera").
  - by rewrite Hrest.
  - destruct Hrest as [<- Hrest]. f_equal. by apply IH.
Qed.

(** C9, as the code has it.  A pending text message that does not contain
    the literal ["type":"motion"] is accepted when memory suffices: the
    call returns true, broadcasts nothing and changes neither the
    client nor the frame buffer; the pass then stamps the slot with the
    current time and leaves it occupied. *)
Theorem C9_text_without_motion_type_not_forwarded c fb io data st (i : nat) t :
  message io = TextMessage data ->
  available io = true ->
  MAX_FRAME_SIZE + 1024 <= freeHeap io ->
  indexOf data motionPattern < 0 ->
  handleWebSocketMessage c fb io = (true, c, fb, [])
  /\ (camClients st !! i = Some (Some c) ->
      serviceSlot st i t io
      = (setClients st
           (<[i := Some (mkCameraClient (client c) (cameraId c) t)]>
              (camClients st))
           (activeClients st),
         [])).
Proof.
  intros Hmsg Hav Hheap Hnone.
  assert (Hcall : forall fb',
            handleWebSocketMessage c fb' io = (true, c, fb', [])).
  { intros fb'. rewrite (handle_text c fb' io data Hav Hheap Hmsg).
    by test_is (indexOf data motionPattern >=? 0) false. }
  split; [apply Hcall |].
  intros Hi. unfold serviceSlot. rewrite Hi, Hcall. simpl.
  rewrite list_insert_insert_eq. by destruct st.
Qed.

(** C10.  An admitted connection sits in its slot with identity -1;
    the identity of a client changes only on an accepted binary frame
    whose byte 12 is 1 or 2; and a motion message that comes in on a
    slot whose identity is still -1 is broadcast once, re-tagged with
    -1, so that when the parsed document is an object its [camera]
    member is -1, which is neither 1 nor 2. *)
Theorem C10_unset_identity_is_broadcast :
  (forall st conn heap now st',
     tableInvariant st ->
     addCameraClient st conn heap now = (true, st') ->
     exists i : nat,
       camClients st' !! i = Some (Some (mkCameraClient conn (-1) now)))
  /\ (forall c fb io,
        cameraId (snd (fst (fst (handleWebSocketMessage c fb io))))
          <> cameraId c ->
        exists payload,
          message io = BinaryMessage payload
          /\ 12 < Z.of_nat (length payload) <= MAX_FRAME_SIZE
          /\ (frameTag payload = 1 \/ frameTag payload = 2))
  /\ (forall c fb io data,
        cameraId c = -1 ->
        available io = true ->
        MAX_FRAME_SIZE + 1024 <= freeHeap io ->
        message io = TextMessage data ->
        0 <= indexOf data motionPattern ->
        let retagged := setMember (deserializeJson data) "camera" (JInt (-1)) in
        handleWebSocketMessage c fb io
        = (true, c, fb, [textAll (serializeJson retagged)])
        /\ (forall members,
              deserializeJson data = JObject members ->
              getMember retagged "camera" = Some (JInt (-1))))
  /\ -1 <> 1 /\ -1 <> 2.
Proof.
  split; [| split; [| split; [| split; lia]]].
  - intros st conn heap now st' Hinv Hadd.
    destruct (addCameraClient_success st conn heap now st' Hinv Hadd)
      as (i & Hi & _ & -> & _).
    exists i. apply list_lookup_insert_eq. by eapply lookup_lt_Some.
  - intros c fb io Hchg.
    destruct (handle_cases c fb io)
      as [Hrej | (Hav & Hheap & [[data Hd] | (payload & Hp & Hfit)])].
    + rewrite Hrej in Hchg. by destruct Hchg.
    + rewrite (handle_text c fb io data Hav Hheap Hd) in Hchg.
      by destruct Hchg.
    + rewrite (handle_binary c fb io payload Hav Hheap Hp Hfit) in Hchg.
      simpl in Hchg. rewrite retag_spec in Hchg.
      destruct ((Z.of_nat (length payload) >? 12)
                && ((frameTag payload =? 1) || (frameTag payload =? 2))
                && negb (cameraId c =? frameTag payload)) eqn:Hcond;
        [| by destruct Hchg].
      apply andb_true_iff in Hcond as [Hcond _].
      apply andb_true_iff in Hcond as [Hlen Htag].
      apply orb_true_iff in Htag.
      exists payload. repeat split; try done; lia.
  - intros c fb io data Hid Hav Hheap Hmsg Hmotion retagged. split.
    + rewrite (handle_text c fb io data Hav Hheap Hmsg).
      test_is (indexOf data motionPattern >=? 0) true.
      by rewrite Hid.
    + intros members Hobj. apply getMember_setMember. right. by exists members.
Qed.

(** ** Admission and eviction together *)

Lemma free_slot_exists (slots : list (option CameraClient)) :
  (occupied slots < length slots)%nat -> None ∈ slots.
Proof.
  induction slots as [|[c|] slots IH]; intros Hlt.
  - simpl in Hlt. lia.
  - rewrite occupied_cons_Some in Hlt. simpl in Hlt.
    apply elem_of_cons. right. apply IH. lia.
  - apply elem_of_cons. by left.
Qed.

(** X1.  On a table that satisfies its invariant, an admission
    succeeds exactly when a slot is free and the heap reading is at
    least [MAX_FRAME_SIZE + 1024]; the closing [return false] of the
    search loop is never reached.  A refused admission leaves the state
    as it was. *)
Theorem X1_admission_succeeds_iff st c heap now :
  tableInvariant st ->
  (fst (addCameraClient st c heap now) = true
   <-> (occupied (camClients st) < Z.to_nat MAX_CLIENTS)%nat
       /\ MAX_FRAME_SIZE + 1024 <= heap)
  /\ (fst (addCameraClient st c heap now) = false ->
      snd (addCameraClient st c heap now) = st).
Proof.
  intros Hinv. pose proof (tableInvariant_bounds st Hinv) as Hb.
  destruct Hinv as [Hlen Hact]. unfold addCameraClient.
  destruct (activeClients st >=? MAX_CLIENTS) eqn:Hfull.
  { simpl. split; [| done]. split; [done |]. unfold MAX_CLIENTS in *. lia. }
  destruct (heap <? MAX_FRAME_SIZE + 1024) eqn:Hheap.
  { simpl. split; [| done]. split; [done | lia]. }
  destruct (list_find _ _) as [[i slot]|] eqn:Hfind; simpl.
  - split; [| done]. split; [| done]. intros _.
    unfold MAX_CLIENTS in *. lia.
  - exfalso. apply list_find_None in Hfind.
    rewrite take_ge in Hfind by lia.
    assert (Hfree : None ∈ camClients st).
    { apply free_slot_exists. unfold MAX_CLIENTS in *. lia. }
    rewrite Forall_forall in Hfind. by apply (Hfind None Hfree).
Qed.

(** X2.  Admitting a connection and then evicting its slot gives the
    state before the admission back, and the eviction announces the
    disconnection of camera -1. *)
Theorem X2_admit_then_evict_restores st c heap now st' :
  tableInvariant st ->
  addCameraClient st c heap now = (true, st') ->
  exists i : nat,
    camClients st' !! i = Some (Some (mkCameraClient c (-1) now))
    /\ removeCameraClient st' i
       = (st, [textAll (statusMsg (-1) "disconnected")]).
Proof.
  intros Hinv Hadd. pose proof (tableInvariant_bounds st Hinv) as Hb.
  destruct Hinv as [Hlen Hact]. unfold addCameraClient in Hadd.
  destruct (activeClients st >=? MAX_CLIENTS) eqn:Hfull; [discriminate |].
  destruct (heap <? MAX_FRAME_SIZE + 1024); [discriminate |].
  destruct (list_find _ _) as [[i slot]|] eqn:Hfind; [| discriminate].
  injection Hadd as <-.
  apply list_find_Some in Hfind as (Hi & -> & _).
  apply lookup_take_Some in Hi as [Hi Hlt].
  pose proof (lookup_lt_Some _ _ _ Hi) as Hin.
  exists i. simpl. split; [by apply list_lookup_insert_eq |].
  unfold removeCameraClient. simpl.
  test_is (Z.of_nat i <? MAX_CLIENTS) true.
  rewrite list_lookup_insert_eq by exact Hin. simpl.
  rewrite list_insert_insert_eq.
  rewrite (list_insert_id (camClients st) i None) by exact Hi.
  rewrite (wrap32_small (activeClients st + 1))
    by (unfold MAX_CLIENTS in *; lia).
  rewrite wrap32_small by (unfold MAX_CLIENTS in *; lia).
  replace (activeClients st + 1 - 1) with (activeClients st) by lia.
  by destruct st.
Qed.

(** ** The turn of a slot *)

Lemma retag_client c fb :
  client (fst (retag c fb)) = client c
  /\ lastActivity (fst (retag c fb)) = lastActivity c
  /\ (cameraId (fst (retag c fb)) = cameraId c
      \/ cameraId (fst (retag c fb)) = 1
      \/ cameraId (fst (retag c fb)) = 2).
Proof.
  unfold retag.
  destruct (StaticFrameBuffer.length fb >? 12); [| by repeat split; left].
  set (tag := byteValue _).
  destruct ((tag =? 1) || (tag =? 2)) eqn:Htag; [| by repeat split; left].
  destruct (negb (cameraId c =? tag)); [| by repeat split; left].
  simpl. repeat split. apply orb_true_iff in Htag. right. lia.
Qed.

Lemma handle_accepted_frame c fb io payload :
  acceptedFrame io payload ->
  handleWebSocketMessage c fb io
  = (true, fst (retag c (bufferWith fb payload)), bufferWith fb payload,
     snd (retag c (bufferWith fb payload))
     ++ map binaryAll (framePieces payload)).
Proof.
  intros (Hav & Hheap & Hmsg & Hfit). by apply handle_binary.
Qed.

(** The call leaves the connection and the activity time of the client
    alone, and its identity is the old one, 1 or 2. *)
Lemma handle_client c fb io :
  let c1 := snd (fst (fst (handleWebSocketMessage c fb io))) in
  client c1 = client c
  /\ lastActivity c1 = lastActivity c
  /\ (cameraId c1 = cameraId c \/ cameraId c1 = 1 \/ cameraId c1 = 2).
Proof.
  destruct (handle_cases c fb io)
    as [Hrej | (Hav & Hheap & [[data Hd] | (payload & Hp & Hfit)])].
  - rewrite Hrej. simpl. by repeat split; left.
  - rewrite (handle_text c fb io data Hav Hheap Hd). simpl.
    by repeat split; left.
  - rewrite (handle_binary c fb io payload Hav Hheap Hp Hfit). simpl.
    apply retag_client.
Qed.

(** The call keeps a frame buffer well formed. *)
Lemma handle_buffer c fb io :
  bufferOk fb ->
  bufferOk (snd (fst (handleWebSocketMessage c fb io))).
Proof.
  intros [Hsize Hlen].
  destruct (handle_cases c fb io)
    as [Hrej | (Hav & Hheap & [[data Hd] | (payload & Hp & Hfit)])].
  - rewrite Hrej. by split.
  - rewrite (handle_text c fb io data Hav Hheap Hd). by split.
  - rewrite (handle_binary c fb io payload Hav Hheap Hp Hfit).
    unfold bufferOk, StaticFrameBuffer.SIZE in *. cbn [fst snd].
    cbn [StaticFrameBuffer.data StaticFrameBuffer.length].
    rewrite length_app, length_drop. lia.
Qed.



(** The turn of an occupied slot when the call returned false. *)
Lemma serviceSlot_unprocessed st (i : nat) t io c c1 fb1 sent :
  tableInvariant st ->
  camClients st !! i = Some (Some c) ->
  handleWebSocketMessage c (frameBuffer st) io = (false, c1, fb1, sent) ->
  serviceSlot st i t io
  = if wrap32 (t - lastActivity c1) >? CLIENT_TIMEOUT
    then (setFrameBuffer
            (setClients st (<[i := None]> (camClients st))
               (activeClients st - 1))
            fb1,
          sent ++ [textAll (statusMsg (cameraId c1) "disconnected")])
    else (setFrameBuffer
            (setClients st (<[i := Some c1]> (camClients st))
               (activeClients st))
            fb1,
          sent).
Proof.
  intros Hinv Hi Hcall. pose proof (tableInvariant_bounds st Hinv) as Hb.
  destruct Hinv as [Hlen Hact].
  pose proof (lookup_lt_Some _ _ _ Hi) as Hlt.
  pose proof (occupied_clear _ _ _ Hi) as Hocc.
  unfold serviceSlot. rewrite Hi, Hcall.
  destruct (wrap32 (t - lastActivity c1) >? CLIENT_TIMEOUT); [| reflexivity].
  unfold removeCameraClient. simpl.
  test_is (Z.of_nat i <? MAX_CLIENTS) true.
  rewrite list_lookup_insert_eq by exact Hlt. simpl.
  rewrite list_insert_insert_eq.
  rewrite wrap32_small by (unfold MAX_CLIENTS in *; lia).
  reflexivity.
Qed.

(** X3.  A slot whose call is refused (nothing pending, too little
    free heap, a frame that is neither text nor binary, or an oversized
    frame) and whose last activity lies more than [CLIENT_TIMEOUT] back
    is evicted in its turn: the slot is emptied, the count lowered by
    one, and one "disconnected" status with the identity of the slot is
    sent.  Any later turn of that slot does nothing, so the eviction is
    announced once. *)
Theorem X3_stale_slot_evicted_once st (i : nat) c t io :
  tableInvariant st ->
  camClients st !! i = Some (Some c) ->
  rejected io ->
  CLIENT_TIMEOUT < wrap32 (t - lastActivity c) ->
  let st' :=
    setClients st (<[i := None]> (camClients st)) (activeClients st - 1) in
  serviceSlot st i t io
  = (st', [textAll (statusMsg (cameraId c) "disconnected")])
  /\ forall t' io', serviceSlot st' i t' io' = (st', []).
Proof.
  intros Hinv Hi Hrej Hstale st'. split.
  - rewrite (serviceSlot_unprocessed st i t io c c (frameBuffer st) [] Hinv Hi)
      by (by apply handle_rejected).
    test_is (wrap32 (t - lastActivity c) >? CLIENT_TIMEOUT) true.
    simpl. by destruct st.
  - intros t' io'. unfold serviceSlot. subst st'. simpl.
    rewrite list_lookup_insert_eq by (by eapply lookup_lt_Some).
    reflexivity.
Qed.


(** X5.  A turn changes no slot but its own. *)
Theorem X5_turn_leaves_other_slots st (i j : nat) t io :
  i <> j ->
  camClients (fst (serviceSlot st i t io)) !! j = camClients st !! j.
Proof.
  intros Hij. unfold serviceSlot.
  destruct (camClients st !! i) as [[c|]|]; try reflexivity.
  destruct (handleWebSocketMessage c (frameBuffer st) io)
    as [[[ok c1] fb1] sent].
  destruct ok; simpl.
  - by rewrite !list_lookup_insert_ne.
  - destruct (wrap32 (t - lastActivity c1) >? CLIENT_TIMEOUT); simpl.
    + unfold removeCameraClient. simpl.
      destruct (Z.of_nat i <? MAX_CLIENTS); simpl;
        [| by rewrite list_lookup_insert_ne].
      destruct (<[i:=Some c1]> (camClients st) !! i) as [[c2|]|]; simpl;
        by rewrite ?list_lookup_insert_ne.
    + by rewrite list_lookup_insert_ne.
Qed.

(** ** Frames and the shared buffer *)

Lemma retag_bufferWith c fb payload :
  retag c (bufferWith fb payload)
  = if (Z.of_nat (length payload) >? 12)
       && ((frameTag payload =? 1) || (frameTag payload =? 2))
       && negb (cameraId c =? frameTag payload)
    then (mkCameraClient (client c) (frameTag payload) (lastActivity c),
          [textAll (statusMsg (cameraId c) "disconnected");
           textAll (statusMsg (frameTag payload) "connected")])
    else (c, []).
Proof. apply retag_spec. Qed.

Lemma handle_frame_plain c fb io payload :
  acceptedFrame io payload ->
  Z.of_nat (length payload) <= 12
  \/ (frameTag payload <> 1 /\ frameTag payload <> 2)
  \/ frameTag payload = cameraId c ->
  handleWebSocketMessage c fb io
  = (true, c, bufferWith fb payload, map binaryAll (framePieces payload)).
Proof.
  intros Hacc Hcond. rewrite (handle_accepted_frame c fb io payload Hacc).
  rewrite retag_bufferWith.
  replace ((Z.of_nat (length payload) >? 12)
           && ((frameTag payload =? 1) || (frameTag payload =? 2))
           && negb (cameraId c =? frameTag payload)) with false;
    [reflexivity |].
  symmetry. destruct Hcond as [Hshort | [[H1 H2] | Hsame]].
  - test_is (Z.of_nat (length payload) >? 12) false. reflexivity.
  - test_is (frameTag payload =? 1) false.
    test_is (frameTag payload =? 2) false.
    by destruct (Z.of_nat (length payload) >? 12).
  - test_is (cameraId c =? frameTag payload) true. apply andb_false_r.
Qed.

(** X6.  An accepted binary frame that names no new identity (it has
    at most 12 bytes, or its byte 12 is neither 1 nor 2, or its byte 12
    is the identity the slot already has) is forwarded in chunks without
    any status message, and the client is left as it was. *)
Theorem X6_frame_without_new_identity c fb io payload :
  acceptedFrame io payload ->
  Z.of_nat (length payload) <= 12
  \/ (frameTag payload <> 1 /\ frameTag payload <> 2)
  \/ frameTag payload = cameraId c ->
  handleWebSocketMessage c fb io
  = (true, c, bufferWith fb payload, map binaryAll (framePieces payload)).
Proof. apply handle_frame_plain. Qed.

(** X7.  After an accepted binary frame of L bytes the buffer records
    the length L, its first L bytes are the frame, and the bytes behind
    them are the ones that were there before; the array keeps its
    size. *)
Theorem X7_buffer_holds_last_frame c fb io payload :
  acceptedFrame io payload ->
  let fb1 := snd (fst (handleWebSocketMessage c fb io)) in
  StaticFrameBuffer.length fb1 = Z.of_nat (length payload)
  /\ take (length payload) (StaticFrameBuffer.data fb1) = payload
  /\ drop (length payload) (StaticFrameBuffer.data fb1)
     = drop (length payload) (StaticFrameBuffer.data fb)
  /\ ((length payload <= length (StaticFrameBuffer.data fb))%nat ->
      length (StaticFrameBuffer.data fb1)
      = length (StaticFrameBuffer.data fb)).
Proof.
  intros Hacc fb1. subst fb1.
  rewrite (handle_accepted_frame c fb io payload Hacc).
  cbn [fst snd]. unfold bufferWith.
  cbn [StaticFrameBuffer.data StaticFrameBuffer.length].
  split; [reflexivity |]. split; [| split].
  - by rewrite take_app_length.
  - by rewrite drop_app_length.
  - intros Hle. rewrite length_app, length_drop. lia.
Qed.

(** X8.  What a call returns, does to the client and broadcasts does
    not depend on what the frame buffer held before: no byte of an
    earlier frame, of this or of another camera, reaches the
    subscribers. *)
Theorem X8_output_independent_of_buffer c fb fb' io :
  let r := handleWebSocketMessage c fb io in
  let r' := handleWebSocketMessage c fb' io in
  fst (fst (fst r)) = fst (fst (fst r'))
  /\ snd (fst (fst r)) = snd (fst (fst r'))
  /\ snd r = snd r'.
Proof.
  intros r r'. subst r r'.
  destruct (handle_cases c fb io)
    as [Hrej | (Hav & Hheap & [[data Hd] | (payload & Hp & Hfit)])].
  - destruct (handle_cases c fb' io)
      as [Hrej' | (Hav & Hheap & [[data Hd] | (payload & Hp & Hfit)])].
    + by rewrite Hrej, Hrej'.
    + rewrite (handle_text c fb io data Hav Hheap Hd) in Hrej. discriminate.
    + rewrite (handle_binary c fb io payload Hav Hheap Hp Hfit) in Hrej.
      discriminate.
  - by rewrite (handle_text c fb io data Hav Hheap Hd),
         (handle_text c fb' io data Hav Hheap Hd).
  - rewrite (handle_binary c fb io payload Hav Hheap Hp Hfit),
      (handle_binary c fb' io payload Hav Hheap Hp Hfit).
    cbn [fst snd]. fold (bufferWith fb payload) (bufferWith fb' payload).
    by rewrite !retag_bufferWith.
Qed.

(** X9.  Once a frame with a valid tag has been processed, the slot
    has that tag as its identity, and a further frame with the same tag
    is forwarded without any status message: a status pair is sent on a
    change of identity only, not per frame. *)
Theorem X9_same_tag_again_sends_no_status c fb io payload io' payload' :
  acceptedFrame io payload ->
  acceptedFrame io' payload' ->
  12 < Z.of_nat (length payload) ->
  frameTag payload = 1 \/ frameTag payload = 2 ->
  frameTag payload' = frameTag payload ->
  let c1 := snd (fst (fst (handleWebSocketMessage c fb io))) in
  let fb1 := snd (fst (handleWebSocketMessage c fb io)) in
  cameraId c1 = frameTag payload
  /\ handleWebSocketMessage c1 fb1 io'
     = (true, c1, bufferWith fb1 payload',
        map binaryAll (framePieces payload')).
Proof.
  intros Hacc Hacc' Hlen Htag Hsame c1 fb1.
  assert (Hid : cameraId c1 = frameTag payload).
  { subst c1. rewrite (handle_accepted_frame c fb io payload Hacc).
    cbn [fst snd]. rewrite retag_bufferWith.
    test_is (Z.of_nat (length payload) >? 12) true.
    replace ((frameTag payload =? 1) || (frameTag payload =? 2)) with true
      by (symmetry; apply orb_true_iff; lia).
    destruct (cameraId c =? frameTag payload) eqn:Heq; simpl; lia. }
  split; [exact Hid |].
  apply handle_frame_plain; [exact Hacc' |].
  right; right. congruence.
Qed.

(** ** Invariants of the buffer and of the identities *)

Lemma resetAll_slots (slots : list (option CameraClient)) : forall active,
  fst (resetAll slots active) = replicate (length slots) None.
Proof.
  induction slots as [|[c|] slots IH]; intros active; simpl;
    [reflexivity | |].
  - specialize (IH (wrap32 (active - 1))).
    destruct (resetAll slots (wrap32 (active - 1))). simpl in *.
    by rewrite IH.
  - specialize (IH active). destruct (resetAll slots active). simpl in *.
    by rewrite IH.
Qed.

Lemma identitiesValid_insert slots (i : nat) slot :
  identitiesValid slots ->
  (forall c, slot = Some c ->
     cameraId c = -1 \/ cameraId c = 1 \/ cameraId c = 2) ->
  identitiesValid (<[i := slot]> slots).
Proof.
  intros Hvalid Hslot j c Hj.
  apply list_lookup_insert_Some in Hj as [(_ & -> & _) | [_ Hj]].
  - by apply Hslot.
  - by eapply Hvalid.
Qed.

Lemma addCameraClient_keeps st c heap now :
  bufferOk (frameBuffer st) /\ identitiesValid (camClients st) ->
  bufferOk (frameBuffer (snd (addCameraClient st c heap now)))
  /\ identitiesValid (camClients (snd (addCameraClient st c heap now))).
Proof.
  intros [Hbuf Hids]. unfold addCameraClient.
  destruct (activeClients st >=? MAX_CLIENTS); [by split |].
  destruct (heap <? MAX_FRAME_SIZE + 1024); [by split |].
  destruct (list_find _ _) as [[i slot]|]; [| by split].
  split; [exact Hbuf |]. simpl.
  apply identitiesValid_insert; [exact Hids |].
  intros c' [= <-]. by left.
Qed.

Lemma removeCameraClient_keeps st index :
  bufferOk (frameBuffer st) /\ identitiesValid (camClients st) ->
  bufferOk (frameBuffer (fst (removeCameraClient st index)))
  /\ identitiesValid (camClients (fst (removeCameraClient st index))).
Proof.
  intros [Hbuf Hids]. unfold removeCameraClient.
  destruct (Z.of_nat index <? MAX_CLIENTS); [| by split].
  destruct (camClients st !! index) as [[c|]|]; [| by split | by split].
  split; [exact Hbuf |]. simpl.
  apply identitiesValid_insert; [exact Hids | discriminate].
Qed.

Lemma monitorMemory_keeps st now heap :
  bufferOk (frameBuffer st) /\ identitiesValid (camClients st) ->
  bufferOk (frameBuffer (monitorMemory st now heap))
  /\ identitiesValid (camClients (monitorMemory st now heap)).
Proof.
  intros [Hbuf Hids]. unfold monitorMemory.
  destruct (wrap32 (now - lastCheck st) >? 1000); [| by split].
  destruct (to_int heap <? 10000); [| by split].
  destruct (lowMemCount st + 1 >? 5); [| by split].
  pose proof (resetAll_slots (take (Z.to_nat MAX_CLIENTS) (camClients st))
                (activeClients st)) as Hreset.
  destruct (resetAll _ _) as [slots active]. simpl in Hreset. subst slots.
  split; [exact Hbuf |]. simpl.
  intros j c Hj. apply lookup_app_Some in Hj as [Hj | [_ Hj]].
  - apply lookup_replicate in Hj as [Hj _]. discriminate.
  - rewrite lookup_drop in Hj. by eapply Hids.
Qed.

Lemma serviceSlot_keeps st (i : nat) t io :
  bufferOk (frameBuffer st) /\ identitiesValid (camClients st) ->
  bufferOk (frameBuffer (fst (serviceSlot st i t io)))
  /\ identitiesValid (camClients (fst (serviceSlot st i t io))).
Proof.
  intros [Hbuf Hids]. unfold serviceSlot.
  destruct (camClients st !! i) as [[c|]|] eqn:Hi; try by split.
  pose proof (handle_client c (frameBuffer st) io) as (_ & _ & Hid).
  pose proof (handle_buffer c (frameBuffer st) io Hbuf) as Hbuf1.
  destruct (handleWebSocketMessage c (frameBuffer st) io)
    as [[[ok c1] fb1] sent]. simpl in Hid, Hbuf1.
  assert (Hc1 : cameraId c1 = -1 \/ cameraId c1 = 1 \/ cameraId c1 = 2).
  { pose proof (Hids i c Hi). lia. }
  assert (Hids1 : identitiesValid (<[i := Some c1]> (camClients st))).
  { apply identitiesValid_insert; [exact Hids |]. by intros c' [= <-]. }
  destruct ok.
  - split; [exact Hbuf1 |]. simpl.
    apply identitiesValid_insert; [exact Hids1 |]. by intros c' [= <-].
  - destruct (wrap32 (t - lastActivity c1) >? CLIENT_TIMEOUT);
      [| by split].
    set (st1 := setFrameBuffer _ fb1).
    pose proof (removeCameraClient_keeps st1 i (conj Hbuf1 Hids1)) as Hrm.
    by destruct (removeCameraClient st1 i).
Qed.

Lemma serviceSlots_keeps indices : forall st t input,
  bufferOk (frameBuffer st) /\ identitiesValid (camClients st) ->
  bufferOk (frameBuffer (fst (serviceSlots st indices t input)))
  /\ identitiesValid (camClients (fst (serviceSlots st indices t input))).
Proof.
  induction indices as [|i rest IH]; intros st t input Hkeep; [exact Hkeep |].
  simpl. pose proof (serviceSlot_keeps st i t (input i) Hkeep) as H1.
  destruct (serviceSlot st i t (input i)) as [st1 sent1].
  specialize (IH st1 t input H1).
  by destruct (serviceSlots st1 rest t input).
Qed.

Lemma step_keeps st op :
  bufferOk (frameBuffer st) /\ identitiesValid (camClients st) ->
  bufferOk (frameBuffer (fst (step st op)))
  /\ identitiesValid (camClients (fst (step st op))).
Proof.
  intros Hkeep. destruct op; simpl.
  - by apply addCameraClient_keeps.
  - by apply removeCameraClient_keeps.
  - by apply monitorMemory_keeps.
  - by apply serviceSlot_keeps.
  - unfold loop. apply serviceSlots_keeps.
    pose proof (monitorMemory_keeps st (monitorNow inp) (monitorHeap inp) Hkeep)
      as H1.
    set (st1 := monitorMemory st (monitorNow inp) (monitorHeap inp)) in *.
    assert (H2 : bufferOk (frameBuffer
                   (if wrap32 (currentTime inp - lastMemCheck st1) >? 5000
                    then setLastMemCheck st1 (currentTime inp) else st1))
                 /\ identitiesValid (camClients
                   (if wrap32 (currentTime inp - lastMemCheck st1) >? 5000
                    then setLastMemCheck st1 (currentTime inp) else st1))).
    { by destruct (_ >? _). }
    destruct (poll inp && _); [| exact H2].
    destruct (acceptedAvailable inp); [| exact H2].
    by apply addCameraClient_keeps.
Qed.

(** X10.  Whatever operations have run from the initial state, the
    array of the frame buffer has its [MAX_FRAME_SIZE] bytes, the
    recorded frame length is between 0 and [MAX_FRAME_SIZE], and every
    client in the table has identity -1, 1 or 2. *)
Theorem X10_buffer_and_identities_invariant (ops : list Operation) :
  let st := fst (run initialState ops) in
  length (StaticFrameBuffer.data (frameBuffer st)) = Z.to_nat MAX_FRAME_SIZE
  /\ 0 <= StaticFrameBuffer.length (frameBuffer st) <= MAX_FRAME_SIZE
  /\ forall (i : nat) c,
       camClients st !! i = Some (Some c) ->
       cameraId c = -1 \/ cameraId c = 1 \/ cameraId c = 2.
Proof.
  assert (Hrun : forall ops st,
            bufferOk (frameBuffer st) /\ identitiesValid (camClients st) ->
            bufferOk (frameBuffer (fst (run st ops)))
            /\ identitiesValid (camClients (fst (run st ops)))).
  { clear ops. induction ops as [|op rest IH]; intros st Hkeep;
      [exact Hkeep |].
    simpl. pose proof (step_keeps st op Hkeep) as H1.
    destruct (step st op) as [st1 sent1]. specialize (IH st1 H1).
    by destruct (run st1 rest). }
  intros st. destruct (Hrun ops initialState) as [[Hsize Hlen] Hids].
  - split.
    + split; [| by vm_compute].
      unfold initialState. cbn [frameBuffer StaticFrameBuffer.data].
      apply length_replicate.
    + intros i c Hi. unfold initialState in Hi. cbn [camClients] in Hi.
      apply lookup_replicate in Hi as [Hi _]. discriminate.
  - split; [exact Hsize |]. split; [exact Hlen | exact Hids].
Qed.

(** ** The sampling cadence *)

Lemma wrap32_elapsed now d :
  0 <= d < 2 ^ 32 -> wrap32 (wrap32 (now + d) - now) = d.
Proof.
  intros Hd. unfold wrap32.
  rewrite Zminus_mod_idemp_l.
  replace (now + d - now) with d by lia.
  by apply Z.mod_small.
Qed.

(** X11.  After a call of [monitorMemory] that took a sample at time
    [now], a call made up to 1000 ms later by the 32-bit clock (also
    across its wrap-around) takes no sample and changes nothing, and a
    call made more than 1000 ms later does take one. *)
Theorem X11_one_sample_per_second st now heap d heap' :
  sampleDue st now = true ->
  0 <= d < 2 ^ 32 ->
  let st1 := monitorMemory st now heap in
  (d <= 1000 -> monitorMemory st1 (wrap32 (now + d)) heap' = st1)
  /\ (1000 < d -> sampleDue st1 (wrap32 (now + d)) = true).
Proof.
  intros Hdue Hd st1.
  assert (Hlast : lastCheck st1 = now).
  { subst st1. unfold sampleDue in Hdue. unfold monitorMemory.
    rewrite Hdue.
    destruct (to_int heap <? 10000); [| reflexivity].
    destruct (lowMemCount st + 1 >? 5); [| reflexivity].
    by destruct (resetAll _ _). }
  split; intros Hcmp.
  - apply monitorMemory_not_due. unfold sampleDue.
    rewrite Hlast, wrap32_elapsed by exact Hd. lia.
  - unfold sampleDue. rewrite Hlast, wrap32_elapsed by exact Hd. lia.
Qed.

(** ** The camera sketch *)

Lemma checkAndResetTimer_state cam cur connected now :
  lastPirState (fst (checkAndResetTimer cam cur connected now)) = cur
  /\ startTime (fst (checkAndResetTimer cam cur connected now))
     = if cur && negb (lastPirState cam) then now else startTime cam.
Proof.
  unfold checkAndResetTimer.
  destruct cur, (lastPirState cam); simpl; by split.
Qed.

Lemma checkAndResetTimer_sent cam cur connected now :
  snd (checkAndResetTimer cam cur connected now)
  = if negb (Bool.eqb cur (lastPirState cam)) && connected
    then [sendText (pirMessage cur)] else [].
Proof.
  unfold checkAndResetTimer.
  destruct (negb (Bool.eqb cur (lastPirState cam))), connected; reflexivity.
Qed.

Lemma last_cons_default {A} (l : list A) : forall a d,
  List.last (a :: l) d = List.last l a.
Proof.
  induction l as [|x l IH]; intros a d; [reflexivity |].
  change (List.last (a :: x :: l) d) with (List.last (x :: l) d).
  by rewrite !IH.
Qed.

(** X12.  Polling the motion sensor over any list of readings sends
    at most one message per change of the reading; while the connection
    is up at every poll, the messages sent are exactly the motion
    messages of the changed values, in order, so a steady reading sends
    nothing; and the remembered state is the last reading. *)
Theorem X12_motion_reported_on_change (readings : list (bool * bool * Z)) :
  forall cam,
    let sent := snd (pollSensor cam readings) in
    let values := map (fun r => fst (fst r)) readings in
    (length sent <= length (changes (lastPirState cam) values))%nat
    /\ (Forall (fun r => snd (fst r) = true) readings ->
        sent = map (fun v => sendText (pirMessage v))
                 (changes (lastPirState cam) values))
    /\ lastPirState (fst (pollSensor cam readings))
       = List.last values (lastPirState cam).
Proof.
  induction readings as [|[[cur connected] now] rest IH]; intros cam.
  - simpl. repeat split; lia.
  - cbn [pollSensor map fst snd changes].
    pose proof (checkAndResetTimer_state cam cur connected now) as [Hlast _].
    pose proof (checkAndResetTimer_sent cam cur connected now) as Hsent.
    destruct (checkAndResetTimer cam cur connected now) as [cam1 sent1].
    simpl in Hlast, Hsent. specialize (IH cam1).
    destruct (pollSensor cam1 rest) as [cam2 sent2].
    cbn [fst snd] in IH |- *. rewrite Hlast in IH.
    destruct IH as (IHlen & IHsent & IHlast). subst sent1.
    split; [| split].
    + rewrite length_app.
      destruct (Bool.eqb cur (lastPirState cam)); simpl.
      * exact IHlen.
      * destruct connected; simpl; lia.
    + intros Hall. apply Forall_cons in Hall as [Hc Hall]. simpl in Hc.
      subst connected. rewrite (IHsent Hall).
      by destruct (Bool.eqb cur (lastPirState cam)).
    + rewrite IHlast. symmetry. apply last_cons_default.
Qed.

(** X13.  In a pass in which the reading rises from low to high the
    timer restarts, and the camera stays awake when the clock reading
    of the pass is less than [sleepTriggerTimeout] after the restart.
    In a pass without a rising edge the timer is left alone, a steady
    high reading included: when [sleepTriggerTimeout] has passed since
    the timer started, the pass ends in deep sleep, after the motion
    message with [detected] false and the close of the connection if
    the connection is up, and no frame is sent. *)
Theorem X13_sleep_timer cam inp :
  (pirReading inp = true ->
   lastPirState cam = false ->
   0 <= nowAtLoop inp - nowAtCheck inp < sleepTriggerTimeout ->
   exists sent,
     cameraLoop cam inp = NextPass (mkCameraState true (nowAtCheck inp)) sent)
  /\ (pirReading inp = false \/ lastPirState cam = true ->
      sleepTriggerTimeout <= wrap32 (nowAtLoop inp - startTime cam) ->
      cameraLoop cam inp
      = DeepSleep
          (snd (checkAndResetTimer cam (pirReading inp) (connectedAtCheck inp)
                  (nowAtCheck inp))
           ++ (if connectedAtSleep inp
               then [sendText (pirMessage false); closeConnection]
               else []))).
Proof.
  split.
  - intros Hhigh Hlow Hnear. unfold cameraLoop, checkAndResetTimer.
    rewrite Hhigh, Hlow. simpl.
    rewrite wrap32_small by (unfold sleepTriggerTimeout in *; lia).
    test_is (nowAtLoop inp - nowAtCheck inp >=? sleepTriggerTimeout) false.
    destruct (captured inp) as [fb|]; [| by eexists].
    destruct (format fb); by eexists.
  - intros Hedge Hlate. unfold cameraLoop.
    pose proof (checkAndResetTimer_state cam (pirReading inp)
                  (connectedAtCheck inp) (nowAtCheck inp)) as [_ Hstart].
    destruct (checkAndResetTimer cam (pirReading inp) (connectedAtCheck inp)
                (nowAtCheck inp)) as [cam1 sent1].
    simpl in Hstart |- *.
    assert (Hsame : startTime cam1 = startTime cam).
    { rewrite Hstart. destruct Hedge as [-> | ->]; [reflexivity |].
      by rewrite andb_false_r. }
    rewrite Hsame.
    test_is (wrap32 (nowAtLoop inp - startTime cam) >=? sleepTriggerTimeout)
      true.
    reflexivity.
Qed.

Lemma cameraLoop_binary cam inp p :
  In (sendBinary p) (outcomeSent (cameraLoop cam inp)) ->
  exists fb,
    captured inp = Some fb /\ p = <[12%nat := "001"%byte]> (buf fb).
Proof.
  unfold cameraLoop.
  pose proof (checkAndResetTimer_sent cam (pirReading inp)
                (connectedAtCheck inp) (nowAtCheck inp)) as Hsent.
  destruct (checkAndResetTimer cam (pirReading inp) (connectedAtCheck inp)
              (nowAtCheck inp)) as [cam1 sent1].
  simpl in Hsent.
  assert (Htext : ~ In (sendBinary p) sent1).
  { rewrite Hsent. destruct (_ && _); simpl; [| tauto].
    intros [H | []]. discriminate. }
  destruct (wrap32 (nowAtLoop inp - startTime cam1) >=? sleepTriggerTimeout).
  { simpl. intros Hin. apply in_app_iff in Hin as [Hin | Hin]; [done |].
    unfold prepareSleep in Hin.
    destruct (connectedAtSleep inp); simpl in Hin; [| done].
    destruct Hin as [H | [H | []]]; discriminate. }
  destruct (captured inp) as [fb|]; [| done].
  destruct (format fb); [| done]. simpl. intros Hin.
  apply in_app_iff in Hin as [Hin | Hin]; [done |].
  destruct (connectedAtSend inp); simpl in Hin; [| done].
  destruct Hin as [[= <-] | []]. by exists fb.
Qed.

Lemma frameTag_tagged (frame : list byte) :
  (12 < length frame)%nat ->
  frameTag (<[12%nat := "001"%byte]> frame) = 1.
Proof.
  intros Hlen. unfold frameTag.
  by rewrite list_lookup_insert_eq by exact Hlen.
Qed.

(** X14.  A frame that the camera's pass sends is its captured frame
    with byte 12 set to 1.  When such a frame of more than 12 bytes is
    accepted by the server, the slot it comes in on has identity 1
    afterwards; the status pair is sent when the slot had another
    identity, and the chunks forwarded are those of the frame as the
    camera sent it. *)
Theorem X14_camera_frame_gives_identity_one cam inp p c fb io :
  In (sendBinary p) (outcomeSent (cameraLoop cam inp)) ->
  acceptedFrame io p ->
  12 < Z.of_nat (length p) ->
  frameTag p = 1
  /\ handleWebSocketMessage c fb io
     = (true, mkCameraClient (client c) 1 (lastActivity c),
        bufferWith fb p,
        (if cameraId c =? 1 then []
         else [textAll (statusMsg (cameraId c) "disconnected");
               textAll (statusMsg 1 "connected")])
        ++ map binaryAll (framePieces p)).
Proof.
  intros Hsent Hacc Hlen.
  destruct (cameraLoop_binary cam inp p Hsent) as (frame & _ & ->).
  rewrite length_insert in Hlen.
  assert (Htag : frameTag (<[12%nat := "001"%byte]> (buf frame)) = 1)
    by (apply frameTag_tagged; lia).
  split; [exact Htag |].
  rewrite (handle_accepted_frame c fb io _ Hacc), retag_bufferWith.
  rewrite Htag, length_insert.
  test_is (Z.of_nat (length (buf frame)) >? 12) true. simpl.
  destruct (cameraId c =? 1) eqn:Hid; simpl; [| reflexivity].
  apply Z.eqb_eq in Hid. destruct c. simpl in Hid. by subst.
Qed.

(** ** Whole passes *)

Lemma handle_chunkSized c fb io :
  Forall chunkSized (snd (handleWebSocketMessage c fb io)).
Proof.
  destruct (handle_cases c fb io)
    as [Hrej | (Hav & Hheap & [[data Hd] | (payload & Hp & Hfit)])].
  - rewrite Hrej. constructor.
  - rewrite (handle_text c fb io data Hav Hheap Hd). simpl.
    destruct (_ >=? _); repeat constructor.
  - rewrite (handle_binary c fb io payload Hav Hheap Hp Hfit). simpl.
    apply Forall_app. split.
    + rewrite retag_spec. destruct (_ && _); repeat constructor.
    + apply List.Forall_forall. intros e He.
      apply in_map_iff in He as (piece & <- & Hin).
      apply list_elem_of_In, list_elem_of_lookup in Hin as [k Hk].
      apply (framePieces_sizes payload k piece Hk).
Qed.

Lemma removeCameraClient_chunkSized st index :
  Forall chunkSized (snd (removeCameraClient st index)).
Proof.
  unfold removeCameraClient.
  destruct (Z.of_nat index <? MAX_CLIENTS); [| constructor].
  destruct (camClients st !! index) as [[c|]|]; repeat constructor.
Qed.

Lemma serviceSlot_chunkSized st (i : nat) t io :
  Forall chunkSized (snd (serviceSlot st i t io)).
Proof.
  unfold serviceSlot.
  destruct (camClients st !! i) as [[c|]|]; try constructor.
  pose proof (handle_chunkSized c (frameBuffer st) io) as Hsent.
  destruct (handleWebSocketMessage c (frameBuffer st) io)
    as [[[ok c1] fb1] sent]. simpl in Hsent.
  destruct ok; [exact Hsent |].
  destruct (wrap32 (t - lastActivity c1) >? CLIENT_TIMEOUT); [| exact Hsent].
  set (st1 := setFrameBuffer _ fb1).
  pose proof (removeCameraClient_chunkSized st1 i) as Hrm.
  destruct (removeCameraClient st1 i) as [st2 notice].
  apply Forall_app. by split.
Qed.

Lemma serviceSlots_chunkSized indices : forall st t input,
  Forall chunkSized (snd (serviceSlots st indices t input)).
Proof.
  induction indices as [|i rest IH]; intros st t input; [constructor |].
  simpl. pose proof (serviceSlot_chunkSized st i t (input i)) as H1.
  destruct (serviceSlot st i t (input i)) as [st1 sent1].
  specialize (IH st1 t input).
  destruct (serviceSlots st1 rest t input) as [st2 sent2].
  apply Forall_app. by split.
Qed.

(** X16.  In the output of any run of operations, from any state,
    every binary broadcast carries at least 1 and at most [CHUNK_SIZE]
    = 8192 bytes: no single send is larger than a chunk and no empty
    chunk is sent. *)
Theorem X16_every_binary_send_is_one_chunk (ops : list Operation) :
  forall st chunk,
    In (binaryAll chunk) (snd (run st ops)) ->
    (0 < length chunk <= Z.to_nat CHUNK_SIZE)%nat.
Proof.
  assert (Hrun : forall st, Forall chunkSized (snd (run st ops))).
  { induction ops as [|op rest IH]; intros st; [constructor |].
    simpl.
    assert (Hstep : Forall chunkSized (snd (step st op))).
    { destruct op; simpl; try constructor.
      - apply removeCameraClient_chunkSized.
      - apply serviceSlot_chunkSized.
      - apply serviceSlots_chunkSized. }
    destruct (step st op) as [st1 sent1]. specialize (IH st1).
    destruct (run st1 rest) as [st2 sent2].
    apply Forall_app. by split. }
  intros st chunk Hin. specialize (Hrun st).
  rewrite List.Forall_forall in Hrun. apply (Hrun _ Hin).
Qed.

Lemma serviceSlot_occupied st (i : nat) t io :
  (occupied (camClients (fst (serviceSlot st i t io)))
   <= occupied (camClients st))%nat.
Proof.
  unfold serviceSlot.
  destruct (camClients st !! i) as [[c|]|] eqn:Hi; try done.
  destruct (handleWebSocketMessage c (frameBuffer st) io)
    as [[[ok c1] fb1] sent].
  pose proof (lookup_lt_Some _ _ _ Hi) as Hlt.
  assert (Hi1 : <[i := Some c1]> (camClients st) !! i = Some (Some c1))
    by (by apply list_lookup_insert_eq).
  pose proof (occupied_update _ _ _ c1 Hi) as Hocc1.
  destruct ok; simpl.
  - rewrite (occupied_update _ _ _ _ Hi1). lia.
  - destruct (wrap32 (t - lastActivity c1) >? CLIENT_TIMEOUT); simpl; [| lia].
    unfold removeCameraClient. simpl.
    destruct (Z.of_nat i <? MAX_CLIENTS); simpl; [| lia].
    rewrite Hi1. simpl. pose proof (occupied_clear _ _ _ Hi1). lia.
Qed.

Lemma serviceSlots_occupied indices : forall st t input,
  (occupied (camClients (fst (serviceSlots st indices t input)))
   <= occupied (camClients st))%nat.
Proof.
  induction indices as [|i rest IH]; intros st t input; [done |].
  simpl. pose proof (serviceSlot_occupied st i t (input i)) as H1.
  destruct (serviceSlot st i t (input i)) as [st1 sent1].
  specialize (IH st1 t input).
  destruct (serviceSlots st1 rest t input) as [st2 sent2].
  simpl in *. lia.
Qed.

Lemma addCameraClient_refused st c heap now st' :
  addCameraClient st c heap now = (false, st') -> st' = st.
Proof.
  unfold addCameraClient.
  destruct (activeClients st >=? MAX_CLIENTS); [by intros [= <-] |].
  destruct (heap <? MAX_FRAME_SIZE + 1024); [by intros [= <-] |].
  destruct (list_find _ _) as [[i slot]|]; [discriminate | by intros [= <-]].
Qed.

(** X17.  One pass of [loop] admits at most one connection: the
    number of occupied slots after the pass is at most the number
    before it plus one, and it does not grow at all unless the server
    polled a connection that is available. *)
Theorem X17_pass_admits_at_most_one st inp :
  tableInvariant st ->
  (occupied (camClients (fst (loop st inp)))
   <= occupied (camClients st)
      + (if poll inp && acceptedAvailable inp then 1 else 0))%nat.
Proof.
  intros Hinv. unfold loop.
  etransitivity; [apply serviceSlots_occupied |].
  pose proof (monitorMemory_invariant st (monitorNow inp) (monitorHeap inp) Hinv)
    as Hinv1.
  assert (Hmon : (occupied (camClients
                    (monitorMemory st (monitorNow inp) (monitorHeap inp)))
                  <= occupied (camClients st))%nat).
  { pose proof (monitorMemory_slots st (monitorNow inp) (monitorHeap inp) Hinv)
      as Hslots.
    destruct (forcedReset st (monitorNow inp) (monitorHeap inp)).
    - destruct Hslots as [-> _]. rewrite occupied_replicate_None. lia.
    - destruct Hslots as [-> _]. lia. }
  set (st1 := monitorMemory st (monitorNow inp) (monitorHeap inp)) in *.
  assert (Hinv2 : tableInvariant
            (if wrap32 (currentTime inp - lastMemCheck st1) >? 5000
             then setLastMemCheck st1 (currentTime inp) else st1)
          /\ camClients
               (if wrap32 (currentTime inp - lastMemCheck st1) >? 5000
                then setLastMemCheck st1 (currentTime inp) else st1)
             = camClients st1).
  { destruct (_ >? _); [| by split]. destruct Hinv1. by repeat split. }
  destruct Hinv2 as [Hinv2 Hsame].
  set (st2 := if wrap32 (currentTime inp - lastMemCheck st1) >? 5000
              then setLastMemCheck st1 (currentTime inp) else st1) in *.
  destruct (poll inp); simpl; [| rewrite Hsame; lia].
  destruct (activeClients st2 <? MAX_CLIENTS);
    [| rewrite Hsame; destruct (acceptedAvailable inp); lia].
  destruct (acceptedAvailable inp); [| rewrite Hsame; lia].
  destruct (addCameraClient st2 (accepted inp) (admitHeap inp) (admitNow inp))
    as [[|] st3] eqn:Hadd; simpl.
  - destruct (addCameraClient_success _ _ _ _ _ Hinv2 Hadd)
      as (i & Hi & _ & -> & _).
    rewrite (occupied_fill _ _ _ Hi), Hsame. lia.
  - apply addCameraClient_refused in Hadd as ->. rewrite Hsame. lia.
Qed.

End Server.

(** ** The reference reader reads broadcasts back

    The text [serializeJson] writes for a document without a
    floating-point value and without a repeated key is read back by the
    reference reader as that document: first for integers and strings,
    then for whole documents by induction on [documentSize], and last
    with the amount of fuel [RefJson.deserializeJson] starts from. *)

Lemma readDigits_stop acc rest :
  noDigitAhead rest -> RefJson.readDigits acc rest = (acc, rest).
Proof. destruct rest as [|c rest]; simpl; [done |]. by intros ->. Qed.

Ltac read_digit :=
  cbn [RefJson.readDigits];
  match goal with |- context [RefJson.digit ?c] =>
    let v := eval vm_compute in (RefJson.digit c) in
    change (RefJson.digit c) with v end;
  cbv iota.

Lemma readDigits_uint_acc d : forall acc rest,
  noDigitAhead rest ->
  RefJson.readDigits (Z.pos acc) (NilEmpty.string_of_uint d ++ rest)
  = (Z.pos (Pos.of_uint_acc d acc), rest).
Proof.
  induction d; intros acc rest Hrest;
    cbn [NilEmpty.string_of_uint String.append Pos.of_uint_acc];
    [by apply readDigits_stop | ..];
    read_digit; rewrite <- (IHd _ rest Hrest); f_equal; lia.
Qed.

Lemma readDigits_uint d : forall rest,
  noDigitAhead rest ->
  RefJson.readDigits 0 (NilEmpty.string_of_uint d ++ rest)
  = (Z.of_N (Pos.of_uint d), rest).
Proof.
  induction d; intros rest Hrest;
    cbn [NilEmpty.string_of_uint String.append Pos.of_uint Z.of_N];
    [by apply readDigits_stop | ..];
    read_digit;
    [by apply IHd | ..];
    by rewrite <- (readDigits_uint_acc d _ rest Hrest).
Qed.

Lemma readInteger_digits d rest :
  d <> Decimal.Nil ->
  RefJson.readInteger (NilEmpty.string_of_uint d ++ rest)
  = Some (RefJson.readDigits 0 (NilEmpty.string_of_uint d ++ rest)).
Proof.
  intros Hd. destruct d; [done | ..]; reflexivity.
Qed.

Lemma readInteger_minus d rest :
  d <> Decimal.Nil ->
  RefJson.readInteger (String "-" (NilEmpty.string_of_uint d ++ rest))
  = let '(n, rest') :=
      RefJson.readDigits 0 (NilEmpty.string_of_uint d ++ rest) in
    Some (- n, rest').
Proof.
  intros Hd. destruct d; [done | ..]; reflexivity.
Qed.

Lemma string_of_uint_nonnil d :
  d <> Decimal.Nil -> NilZero.string_of_uint d = NilEmpty.string_of_uint d.
Proof. by destruct d. Qed.

(** Reading back the decimal text of an integer. *)
Lemma readInteger_String_of_int z rest :
  noDigitAhead rest ->
  RefJson.readInteger (String_of_int z ++ rest) = Some (z, rest).
Proof.
  intros Hrest. unfold String_of_int.
  destruct z as [|p|p]; cbn [Z.to_int NilZero.string_of_int].
  - change (Some (RefJson.readDigits 0 rest) = Some (0, rest)).
    by rewrite readDigits_stop.
  - pose proof (DecimalPos.Unsigned.to_uint_nonnil p) as Hnil.
    rewrite (string_of_uint_nonnil _ Hnil).
    rewrite (readInteger_digits _ _ Hnil), (readDigits_uint _ _ Hrest).
    by rewrite DecimalPos.Unsigned.of_to.
  - pose proof (DecimalPos.Unsigned.to_uint_nonnil p) as Hnil.
    rewrite (string_of_uint_nonnil _ Hnil). cbn [String.append].
    rewrite (readInteger_minus _ _ Hnil), (readDigits_uint _ _ Hrest).
    by rewrite DecimalPos.Unsigned.of_to.
Qed.

Lemma string_app_assoc (a b c : string) :
  ((a ++ b) ++ c = a ++ (b ++ c))%string.
Proof. induction a as [|x a IH]; simpl; [reflexivity | by rewrite IH]. Qed.

(** Reading back an escaped string up to its closing quote. *)
Lemma readString_escapeString s : forall rest,
  RefJson.readString (escapeString s ++ String "034" rest) = Some (s, rest).
Proof.
  induction s as [|c s IH]; intros rest; [reflexivity |].
  cbn [escapeString]. rewrite string_app_assoc.
  destruct c as [[|] [|] [|] [|] [|] [|] [|] [|]];
    cbn [escapeChar String.append dq RefJson.readString RefJson.unescape];
    by rewrite IH.
Qed.

Lemma serializeJson_object members :
  serializeJson (JObject members)
  = ("{" ++ joinItems (map memberText members) ++ "}")%string.
Proof.
  cbn [serializeJson]. do 2 f_equal.
  induction members as [|[k v] [|m rest] IH]; try reflexivity.
  cbn [map joinItems] in *. rewrite <- IH. unfold memberText. cbn [fst snd].
  by rewrite !string_app_assoc.
Qed.

Lemma serializeJson_array elements :
  serializeJson (JArray elements)
  = ("[" ++ joinItems (map serializeJson elements) ++ "]")%string.
Proof.
  cbn [serializeJson]. do 2 f_equal.
  induction elements as [|v [|x rest] IH]; try reflexivity.
  cbn [map joinItems] in *. by rewrite <- IH.
Qed.

Lemma documentSize_array x rest :
  documentSize (JArray (x :: rest)) = (S (documentSize x) + documentSize (JArray rest))%nat.
Proof. cbn [documentSize]. lia. Qed.

Lemma documentSize_object k x rest :
  documentSize (JObject ((k, x) :: rest)) = (S (documentSize x) + documentSize (JObject rest))%nat.
Proof. cbn [documentSize]. lia. Qed.

Lemma documentSize_pos v : (1 <= documentSize v)%nat.
Proof. destruct v; cbn [documentSize]; lia. Qed.

Lemma substring_all s : String.substring 0 (String.length s) s = s.
Proof. induction s as [|c s IH]; simpl; [reflexivity | by rewrite IH]. Qed.

Lemma prefix_empty s : String.prefix EmptyString s = true.
Proof. by destruct s. Qed.

Lemma readValue_null f rest :
  RefJson.readValue (S f) ("null" ++ rest) = Some (JNull, rest).
Proof.
  simpl. unfold RefJson.readLiteral, RefJson.dropPrefix. simpl.
  by rewrite prefix_empty, Nat.sub_0_r, substring_all.
Qed.

Lemma readValue_true f rest :
  RefJson.readValue (S f) ("true" ++ rest) = Some (JBool true, rest).
Proof.
  simpl. unfold RefJson.readLiteral, RefJson.dropPrefix. simpl.
  by rewrite prefix_empty, Nat.sub_0_r, substring_all.
Qed.

Lemma readValue_false f rest :
  RefJson.readValue (S f) ("false" ++ rest) = Some (JBool false, rest).
Proof.
  simpl. unfold RefJson.readLiteral, RefJson.dropPrefix. simpl.
  by rewrite prefix_empty, Nat.sub_0_r, substring_all.
Qed.

Lemma readValue_string f s rest :
  RefJson.readValue (S f) (quoted (escapeString s) ++ rest)
  = Some (JString s, rest).
Proof.
  unfold quoted, dq. rewrite !string_app_assoc.
  cbn [String.append]. simpl RefJson.readValue.
  by rewrite readString_escapeString.
Qed.

Lemma readValue_digits f d rest :
  d <> Decimal.Nil ->
  RefJson.readValue (S f) (NilEmpty.string_of_uint d ++ rest)
  = match RefJson.readInteger (NilEmpty.string_of_uint d ++ rest) with
    | Some (n, rest') => Some (JInt n, rest')
    | None => None
    end.
Proof. intros Hd. destruct d; [done | ..]; reflexivity. Qed.

Lemma readValue_minus f d rest :
  d <> Decimal.Nil ->
  RefJson.readValue (S f) (String "-" (NilEmpty.string_of_uint d ++ rest))
  = match RefJson.readInteger
            (String "-" (NilEmpty.string_of_uint d ++ rest)) with
    | Some (n, rest') => Some (JInt n, rest')
    | None => None
    end.
Proof. intros Hd. destruct d; [done | ..]; reflexivity. Qed.

Lemma readValue_integer f z rest :
  noDigitAhead rest ->
  RefJson.readValue (S f) (String_of_int z ++ rest) = Some (JInt z, rest).
Proof.
  intros Hrest.
  pose proof (readInteger_String_of_int z rest Hrest) as Hread.
  unfold String_of_int in *.
  destruct z as [|p|p]; cbn [Z.to_int NilZero.string_of_int] in *.
  - change (RefJson.readValue (S f) (String "0" rest) = Some (JInt 0, rest)).
    change (RefJson.readInteger (String "0" rest) = Some (0, rest)) in Hread.
    change (RefJson.readValue (S f) (String "0" rest))
      with (match RefJson.readInteger (String "0" rest) with
            | Some (n, rest') => Some (JInt n, rest')
            | None => None
            end).
    by rewrite Hread.
  - pose proof (DecimalPos.Unsigned.to_uint_nonnil p) as Hnil.
    rewrite (string_of_uint_nonnil _ Hnil) in *.
    by rewrite (readValue_digits _ _ _ Hnil), Hread.
  - pose proof (DecimalPos.Unsigned.to_uint_nonnil p) as Hnil.
    rewrite (string_of_uint_nonnil _ Hnil) in *. cbn [String.append] in *.
    by rewrite (readValue_minus _ _ _ Hnil), Hread.
Qed.

Lemma String_of_int_start z :
  exists c t, String_of_int z = String c t /\ valueStart c = true.
Proof.
  unfold String_of_int.
  destruct z as [|p|p]; cbn [Z.to_int NilZero.string_of_int];
    try (by eexists _, _).
  pose proof (DecimalPos.Unsigned.to_uint_nonnil p) as Hnil.
  destruct (Pos.to_uint p); [done | ..]; by eexists _, _.
Qed.

Lemma serializeJson_start v :
  readable v ->
  exists c t, serializeJson v = String c t /\ valueStart c = true.
Proof.
  destruct v as [|[|]|z|repr|s|elements|members]; intros Hv.
  - by eexists _, _.
  - by eexists _, _.
  - by eexists _, _.
  - apply String_of_int_start.
  - destruct Hv.
  - by eexists _, _.
  - rewrite serializeJson_array. by eexists _, _.
  - rewrite serializeJson_object. by eexists _, _.
Qed.

Lemma readValue_array_open f c t :
  valueStart c = true ->
  RefJson.readValue (S f) (String "[" (String c t))
  = match RefJson.readElements f (String c t) with
    | Some (elements, rest) => Some (JArray elements, rest)
    | None => None
    end.
Proof.
  intros Hc.
  destruct c as [[|] [|] [|] [|] [|] [|] [|] [|]];
    try (cbv in Hc; discriminate Hc); reflexivity.
Qed.

Lemma noDigitAhead_bracket rest : noDigitAhead (String "]" rest).
Proof. reflexivity. Qed.

Lemma noDigitAhead_brace rest : noDigitAhead (String "}" rest).
Proof. reflexivity. Qed.

Lemma noDigitAhead_comma rest : noDigitAhead (String "," rest).
Proof. reflexivity. Qed.

Lemma readElements_items elements :
  elements <> [] ->
  Forall readsBack elements ->
  forall fuel rest,
    (documentSize (JArray elements) <= S fuel)%nat ->
    RefJson.readElements fuel
      (joinItems (map serializeJson elements) ++ String "]" rest)
    = Some (elements, rest).
Proof.
  induction elements as [|x [|y r] IH]; intros Hne Hall fuel rest Hfuel;
    [done | |].
  - apply Forall_cons in Hall as [Hx _]. rewrite documentSize_array in Hfuel.
    cbn [documentSize] in Hfuel.
    destruct fuel as [|fuel]; [lia |].
    cbn [map joinItems RefJson.readElements].
    rewrite (Hx fuel (String "]" rest));
      [reflexivity | lia | apply noDigitAhead_bracket].
  - apply Forall_cons in Hall as [Hx Hall]. rewrite documentSize_array in Hfuel.
    pose proof (documentSize_pos (JArray (y :: r))) as Hpos.
    destruct fuel as [|fuel]; [lia |].
    change (joinItems (map serializeJson (x :: y :: r)))
      with (serializeJson x ++ "," ++ joinItems (map serializeJson (y :: r)))%string.
    rewrite !string_app_assoc. cbn [String.append RefJson.readElements].
    rewrite (Hx fuel); [| lia | apply noDigitAhead_comma].
    change (RefJson.skipSpace (String "," ?s)) with (String "," s).
    cbv iota.
    rewrite (IH ltac:(done) Hall fuel rest) by lia.
    reflexivity.
Qed.

Lemma memberText_app k v tail :
  (memberText (k, v) ++ tail)%string
  = String "034"
      (escapeString k ++ String "034" (String ":" (serializeJson v ++ tail))).
Proof.
  unfold memberText, quoted, dq. cbn [fst snd]. simpl.
  rewrite !string_app_assoc. reflexivity.
Qed.

Lemma readMembers_items members :
  members <> [] ->
  Forall (fun m => readsBack (snd m)) members ->
  forall fuel acc rest,
    (documentSize (JObject members) <= S fuel)%nat ->
    RefJson.readMembers fuel acc
      (joinItems (map memberText members) ++ String "}" rest)
    = Some (mergeMembers acc members, rest).
Proof.
  induction members as [|[k v] [|m r] IH];
    intros Hne Hall fuel acc rest Hfuel; [done | |].
  - apply Forall_cons in Hall as [Hv _]. cbn [snd] in Hv.
    rewrite documentSize_object in Hfuel. cbn [documentSize] in Hfuel.
    destruct fuel as [|fuel]; [lia |].
    cbn [map joinItems]. rewrite memberText_app.
    cbn [RefJson.readMembers].
    change (RefJson.skipSpace (String "034" ?s)) with (String "034" s).
    cbv iota. rewrite readString_escapeString.
    change (RefJson.skipSpace (String ":" ?s)) with (String ":" s).
    cbv iota.
    rewrite (Hv fuel (String "}" rest));
      [reflexivity | lia | apply noDigitAhead_brace].
  - apply Forall_cons in Hall as [Hv Hall]. cbn [snd] in Hv.
    rewrite documentSize_object in Hfuel.
    pose proof (documentSize_pos (JObject (m :: r))) as Hpos.
    destruct fuel as [|fuel]; [lia |].
    change (joinItems (map memberText ((k, v) :: m :: r)))
      with (memberText (k, v) ++ "," ++ joinItems (map memberText (m :: r)))%string.
    rewrite string_app_assoc, memberText_app.
    cbn [RefJson.readMembers].
    change (RefJson.skipSpace (String "034" ?s)) with (String "034" s).
    cbv iota. rewrite readString_escapeString.
    change (RefJson.skipSpace (String ":" ?s)) with (String ":" s).
    cbv iota. rewrite string_app_assoc. cbn [String.append].
    rewrite (Hv fuel); [| lia | apply noDigitAhead_comma].
    change (RefJson.skipSpace (String "," ?s)) with (String "," s).
    cbv iota.
    rewrite (IH ltac:(done) Hall fuel _ rest) by lia.
    reflexivity.
Qed.

Lemma assignMember_fresh key value members :
  lookupMember key members = None ->
  assignMember key value members = members ++ [(key, value)].
Proof.
  induction members as [|[k v] rest IH]; intros Hnone; [reflexivity |].
  simpl in *. destruct (String.eqb k key); [discriminate |].
  by rewrite IH.
Qed.

Lemma lookupMember_app key (a b : list (string * JsonVariant)) :
  lookupMember key (a ++ b)
  = match lookupMember key a with
    | Some v => Some v
    | None => lookupMember key b
    end.
Proof.
  induction a as [|[k v] a IH]; simpl; [reflexivity |].
  by destruct (String.eqb k key).
Qed.

Lemma lookupMember_None key members :
  lookupMember key members = None ->
  Forall (fun m => String.eqb (fst m) key = false) members.
Proof.
  induction members as [|[k v] rest IH]; intros Hnone; constructor.
  - simpl in *. by destruct (String.eqb k key).
  - apply IH. simpl in Hnone. by destruct (String.eqb k key).
Qed.

(** The members of an object without a repeated key. *)
Lemma readable_object_cons k v rest :
  readable (JObject ((k, v) :: rest))
  <-> readable v /\ lookupMember k rest = None /\ readable (JObject rest).
Proof. reflexivity. Qed.

Lemma readable_array_cons x rest :
  readable (JArray (x :: rest)) <-> readable x /\ readable (JArray rest).
Proof. reflexivity. Qed.

Lemma mergeMembers_distinct members : forall acc,
  readable (JObject members) ->
  Forall (fun m => lookupMember (fst m) acc = None) members ->
  mergeMembers acc members = acc ++ members.
Proof.
  induction members as [|[k v] rest IH]; intros acc Hread Hfresh.
  - by rewrite app_nil_r.
  - apply readable_object_cons in Hread as (_ & Hlater & Hrest).
    apply Forall_cons in Hfresh as [Hk Hfresh]. cbn [fst] in Hk.
    unfold mergeMembers in *. cbn [fold_left fst snd].
    rewrite (assignMember_fresh _ _ _ Hk), (IH _ Hrest).
    + by rewrite <- app_assoc.
    + apply lookupMember_None in Hlater.
      rewrite Forall_forall in Hfresh, Hlater |- *.
      intros m Hm. rewrite lookupMember_app, (Hfresh m Hm). simpl.
      rewrite String.eqb_sym, (Hlater m Hm). reflexivity.
Qed.

Lemma readable_elements elements :
  readable (JArray elements) ->
  Forall (fun x => readable x /\ (documentSize x < documentSize (JArray elements))%nat)
    elements.
Proof.
  induction elements as [|x rest IH]; intros Hread; constructor.
  - apply readable_array_cons in Hread as [Hx _].
    split; [exact Hx |]. rewrite documentSize_array. lia.
  - apply readable_array_cons in Hread as [_ Hrest].
    eapply Forall_impl; [apply IH, Hrest |].
    intros y [Hy Hlt]. split; [exact Hy |]. rewrite documentSize_array. lia.
Qed.

Lemma readable_members members :
  readable (JObject members) ->
  Forall (fun m => readable (snd m)
                   /\ (documentSize (snd m) < documentSize (JObject members))%nat)
    members.
Proof.
  induction members as [|[k v] rest IH]; intros Hread; constructor.
  - apply readable_object_cons in Hread as (Hv & _ & _).
    split; [exact Hv |]. rewrite documentSize_object. cbn [snd]. lia.
  - apply readable_object_cons in Hread as (_ & _ & Hrest).
    eapply Forall_impl; [apply IH, Hrest |].
    intros m [Hm Hlt]. split; [exact Hm |]. rewrite documentSize_object. lia.
Qed.

(** The reference reader reads a readable document back from its
    text. *)
Lemma readValue_serializeJson (n : nat) : forall v,
  (documentSize v <= n)%nat -> readable v -> readsBack v.
Proof.
  induction n as [|n IH]; intros v Hsize Hread;
    [pose proof (documentSize_pos v); lia |].
  intros fuel rest Hfuel Hrest.
  destruct fuel as [|fuel]; [pose proof (documentSize_pos v); lia |].
  destruct v as [|[|]|z|repr|s|elements|members].
  - apply readValue_null.
  - apply readValue_true.
  - apply readValue_false.
  - by apply readValue_integer.
  - destruct Hread.
  - apply readValue_string.
  - rewrite serializeJson_array, !string_app_assoc.
    cbn [String.append].
    destruct elements as [|x elements]; [reflexivity |].
    assert (Hall : Forall readsBack (x :: elements)).
    { eapply Forall_impl; [apply readable_elements, Hread |].
      intros y [Hy Hlt]. apply IH; [lia | exact Hy]. }
    pose proof (readElements_items (x :: elements) ltac:(done) Hall fuel rest
                  Hfuel) as Hitems.
    apply readable_array_cons in Hread as [Hx _].
    destruct (serializeJson_start x Hx) as (c & t & Htext & Hc).
    assert (Hhead : exists t',
              (joinItems (map serializeJson (x :: elements)) ++ String "]" rest)%string
              = String c t').
    { destruct elements; cbn [map joinItems]; rewrite Htext; by eexists. }
    destruct Hhead as [t' Hhead]. rewrite Hhead in *.
    by rewrite (readValue_array_open _ _ _ Hc), Hitems.
  - rewrite serializeJson_object, !string_app_assoc.
    cbn [String.append].
    destruct members as [|[k v] members]; [reflexivity |].
    assert (Hall : Forall (fun m => readsBack (snd m)) ((k, v) :: members)).
    { eapply Forall_impl; [apply readable_members, Hread |].
      intros m [Hm Hlt]. apply IH; [lia | exact Hm]. }
    pose proof (readMembers_items ((k, v) :: members) ltac:(done) Hall fuel
                  [] rest Hfuel) as Hitems.
    rewrite mergeMembers_distinct in Hitems;
      [| exact Hread | by apply Forall_forall].
    assert (Hhead : exists t',
              (joinItems (map memberText ((k, v) :: members)) ++ String "}" rest)%string
              = String "034" t').
    { destruct members; cbn [map joinItems];
        rewrite ?string_app_assoc, memberText_app; by eexists. }
    destruct Hhead as [t' Hhead]. rewrite Hhead in *.
    change (RefJson.readValue (S fuel) (String "{" (String "034" t')))
      with (match RefJson.readMembers fuel [] (String "034" t') with
            | Some (ms, rest') => Some (JObject ms, rest')
            | None => None
            end).
    by rewrite Hitems.
Qed.

Lemma string_app_nil_r (s : string) : (s ++ EmptyString)%string = s.
Proof. induction s as [|c s IH]; simpl; [reflexivity | by rewrite IH]. Qed.

Lemma string_length_app (a b : string) :
  String.length (a ++ b) = (String.length a + String.length b)%nat.
Proof. induction a as [|c a IH]; simpl; [reflexivity | by rewrite IH]. Qed.

Lemma documentSize_elements_text elements :
  Forall (fun x => (documentSize x <= String.length (serializeJson x))%nat) elements ->
  (documentSize (JArray elements)
   <= String.length (joinItems (map serializeJson elements)) + 2)%nat.
Proof.
  induction elements as [|x [|y r] IH]; intros Hall.
  - cbn. lia.
  - apply Forall_cons in Hall as [Hx _]. rewrite documentSize_array.
    cbn [documentSize map joinItems]. lia.
  - apply Forall_cons in Hall as [Hx Hall]. specialize (IH Hall).
    rewrite documentSize_array.
    change (joinItems (map serializeJson (x :: y :: r)))
      with (serializeJson x ++ "," ++ joinItems (map serializeJson (y :: r)))%string.
    rewrite !string_length_app. cbn [String.length]. lia.
Qed.

Lemma memberText_length k v :
  (3 + String.length (serializeJson v) <= String.length (memberText (k, v)))%nat.
Proof.
  unfold memberText, quoted, dq. cbn [fst snd].
  rewrite !string_length_app. cbn [String.length]. lia.
Qed.

Lemma documentSize_members_text members :
  Forall (fun m => (documentSize (snd m) <= String.length (serializeJson (snd m)))%nat)
    members ->
  (documentSize (JObject members)
   <= String.length (joinItems (map memberText members)) + 2)%nat.
Proof.
  induction members as [|[k v] [|m r] IH]; intros Hall.
  - cbn. lia.
  - apply Forall_cons in Hall as [Hv _]. cbn [snd] in Hv.
    rewrite documentSize_object. pose proof (memberText_length k v).
    cbn [documentSize map joinItems]. lia.
  - apply Forall_cons in Hall as [Hv Hall]. cbn [snd] in Hv.
    specialize (IH Hall). rewrite documentSize_object.
    pose proof (memberText_length k v).
    change (joinItems (map memberText ((k, v) :: m :: r)))
      with (memberText (k, v) ++ "," ++ joinItems (map memberText (m :: r)))%string.
    rewrite !string_length_app. cbn [String.length]. lia.
Qed.

Lemma documentSize_le_text (n : nat) : forall v,
  (documentSize v <= n)%nat -> readable v ->
  (documentSize v <= String.length (serializeJson v))%nat.
Proof.
  induction n as [|n IH]; intros v Hsize Hread;
    [pose proof (documentSize_pos v); lia |].
  destruct v as [|[|]|z|repr|s|elements|members].
  - cbn. lia.
  - cbn. lia.
  - cbn. lia.
  - destruct (String_of_int_start z) as (c & t & Htext & _).
    cbn [serializeJson documentSize]. rewrite Htext. cbn [String.length]. lia.
  - destruct Hread.
  - cbn [serializeJson documentSize]. unfold quoted, dq.
    rewrite !string_length_app. cbn [String.length]. lia.
  - rewrite serializeJson_array, !string_length_app. cbn [String.length].
    pose proof (documentSize_elements_text elements) as Hlen.
    assert (Hall : Forall (fun x => (documentSize x <= String.length (serializeJson x))%nat)
                     elements).
    { eapply Forall_impl; [apply readable_elements, Hread |].
      intros y [Hy Hlt]. apply IH; [lia | exact Hy]. }
    specialize (Hlen Hall). lia.
  - rewrite serializeJson_object, !string_length_app. cbn [String.length].
    pose proof (documentSize_members_text members) as Hlen.
    assert (Hall : Forall (fun m => (documentSize (snd m)
                                     <= String.length (serializeJson (snd m)))%nat)
                     members).
    { eapply Forall_impl; [apply readable_members, Hread |].
      intros m [Hm Hlt]. apply IH; [lia | exact Hm]. }
    specialize (Hlen Hall). lia.
Qed.

(** Round trip: the reference reader reads the text of a readable
    document back. *)
Lemma deserializeJson_serializeJson v :
  readable v -> RefJson.deserializeJson (serializeJson v) = v.
Proof.
  intros Hread. unfold RefJson.deserializeJson.
  pose proof (documentSize_le_text _ v (le_n _) Hread) as Hlen.
  pose proof (readValue_serializeJson _ v (le_n _) Hread
                (S (String.length (serializeJson v))) EmptyString) as Hback.
  rewrite string_app_nil_r in Hback. rewrite Hback; [reflexivity | lia | done].
Qed.

Lemma lookupMember_assign_other k key value members :
  String.eqb k key = false ->
  lookupMember k (assignMember key value members) = lookupMember k members.
Proof.
  intros Hk. induction members as [|[k' v'] rest IH]; simpl.
  - by rewrite String.eqb_sym, Hk.
  - destruct (String.eqb k' key) eqn:Hkey; simpl.
    + destruct (String.eqb k' k) eqn:Hk'; [| reflexivity].
      apply String.eqb_eq in Hkey, Hk'. subst.
      by rewrite String.eqb_refl in Hk.
    + by rewrite IH.
Qed.

Lemma readable_assignMember key value members :
  readable value ->
  readable (JObject members) ->
  readable (JObject (assignMember key value members)).
Proof.
  intros Hvalue. induction members as [|[k v] rest IH]; intros Hread.
  - cbn. by repeat split.
  - apply readable_object_cons in Hread as (Hv & Hlater & Hrest).
    cbn [assignMember]. destruct (String.eqb k key) eqn:Hk.
    + apply readable_object_cons. by repeat split.
    + apply readable_object_cons. split; [exact Hv |]. split; [| by apply IH].
      by rewrite lookupMember_assign_other.
Qed.

(** C2, as the code has it.  The code recognises a motion message by
    the literal ["type":"motion"] in its text.  When such a text message
    is pending on a slot and memory suffices, then, whatever the parser,
    the call broadcasts exactly one text: the serialisation of the
    parsed document after [camera] has been set to the identity of the
    slot.  When the parsed document is an object without a repeated key
    and without a floating-point value, the reference reader reads that
    broadcast text back as the object with its [camera] member set to
    the identity of the slot, so the [camera] field of the broadcast
    text is that identity.  A second message that also holds the literal
    and whose parsed object is equal except for the value of the
    [camera] member gives the same result, the same broadcast included.
    With the reference reader as the parser and the message the compact
    text of such an object, the broadcast is the compact text of the
    object with [camera] set to the identity of the slot, and the
    compact text of an object equal except for the value of [camera]
    gives the same broadcast. *)
Theorem C2_motion_broadcast_reads_back_slot_identity
    (deserializeJson : string -> JsonVariant) c fb io data :
  message io = TextMessage data ->
  available io = true ->
  MAX_FRAME_SIZE + 1024 <= freeHeap io ->
  0 <= indexOf data motionPattern ->
  let retagged :=
    setMember (deserializeJson data) "camera" (JInt (cameraId c)) in
  let other data' :=
    mkSlotInput (available io) (freeHeap io) (TextMessage data') in
  handleWebSocketMessage deserializeJson c fb io
  = (true, c, fb, [textAll (serializeJson retagged)])
  /\ (forall members,
        deserializeJson data = JObject members ->
        readable (JObject members) ->
        RefJson.deserializeJson (serializeJson retagged)
        = JObject (assignMember "camera" (JInt (cameraId c)) members)
        /\ getMember (RefJson.deserializeJson (serializeJson retagged))
             "camera"
           = Some (JInt (cameraId c)))
  /\ (forall data' members members',
        deserializeJson data = JObject members ->
        deserializeJson data' = JObject members' ->
        sameExceptCamera members members' ->
        0 <= indexOf data' motionPattern ->
        handleWebSocketMessage deserializeJson c fb (other data')
        = handleWebSocketMessage deserializeJson c fb io)
  /\ (forall members members',
        data = serializeJson (JObject members) ->
        readable (JObject members) ->
        readable (JObject members') ->
        sameExceptCamera members members' ->
        0 <= indexOf (serializeJson (JObject members')) motionPattern ->
        handleWebSocketMessage RefJson.deserializeJson c fb io
        = (true, c, fb,
           [textAll
              (serializeJson
                 (JObject
                    (assignMember "camera" (JInt (cameraId c)) members)))])
        /\ handleWebSocketMessage RefJson.deserializeJson c fb
             (other (serializeJson (JObject members')))
           = handleWebSocketMessage RefJson.deserializeJson c fb io).
Proof.
  intros Hmsg Hav Hheap Hmotion retagged other.
  assert (Hsent : forall parser,
            handleWebSocketMessage parser c fb io
            = (true, c, fb,
               [textAll (serializeJson
                           (setMember (parser data) "camera"
                              (JInt (cameraId c))))])).
  { intros parser. rewrite (handle_text parser c fb io data Hav Hheap Hmsg).
    by replace (indexOf data motionPattern >=? 0) with true
      by (symmetry; lia). }
  assert (Hother : forall parser data',
            0 <= indexOf data' motionPattern ->
            handleWebSocketMessage parser c fb (other data')
            = (true, c, fb,
               [textAll (serializeJson
                           (setMember (parser data') "camera"
                              (JInt (cameraId c))))])).
  { intros parser data' Hmotion'.
    rewrite (handle_text parser c fb (other data') data');
      [| exact Hav | simpl; lia | reflexivity].
    by replace (indexOf data' motionPattern >=? 0) with true
      by (symmetry; lia). }
  split; [| split; [| split]].
  - apply Hsent.
  - intros members Hobj Hreadable. subst retagged. rewrite Hobj.
    cbn [setMember].
    rewrite deserializeJson_serializeJson
      by (by apply readable_assignMember).
    split; [reflexivity |]. apply lookupMember_assignMember.
  - intros data' members members' Hobj Hobj' Hsame Hmotion'.
    rewrite (Hother _ _ Hmotion'), Hsent, Hobj, Hobj'. cbn [setMember].
    by rewrite (sameExceptCamera_assign _ _ _ Hsame).
  - intros members members' -> Hreadable Hreadable' Hsame Hmotion'.
    rewrite (Hother _ _ Hmotion'), Hsent.
    rewrite !deserializeJson_serializeJson by done. cbn [setMember].
    split; [reflexivity |].
    by rewrite (sameExceptCamera_assign _ _ _ Hsame).
Qed.

(** X15.  Every text that the camera's sensor check or its
    preparation for sleep sends is a motion message.  When it is pending
    on a slot and memory suffices, the server broadcasts it once,
    whatever the parser: the parsed document with [camera] set to the
    identity of the slot; read with the reference reader, the broadcast
    is the message with the [camera] member added at the end.  Neither
    the client nor the frame buffer changes. *)
Theorem X15_camera_motion_message_is_forwarded cam cur connected now
    connected' msg c fb io :
  In (sendText msg)
    (snd (checkAndResetTimer cam cur connected now)
     ++ prepareSleep connected') ->
  available io = true ->
  MAX_FRAME_SIZE + 1024 <= freeHeap io ->
  message io = TextMessage msg ->
  exists detected : bool,
    msg = pirMessage detected
    /\ (forall deserializeJson,
          handleWebSocketMessage deserializeJson c fb io
          = (true, c, fb,
             [textAll
                (serializeJson
                   (setMember (deserializeJson msg) "camera"
                      (JInt (cameraId c))))]))
    /\ handleWebSocketMessage RefJson.deserializeJson c fb io
       = (true, c, fb,
          [textAll
             ("{" ++ quoted "type" ++ ":" ++ quoted "motion" ++ ","
                ++ quoted "detected" ++ ":"
                ++ (if detected then "true" else "false") ++ ","
                ++ quoted "camera" ++ ":" ++ String_of_int (cameraId c)
                ++ "}")%string]).
Proof.
  intros Hsent Hav Hheap Hmsg.
  assert (Hshape : exists detected : bool, msg = pirMessage detected).
  { apply in_app_iff in Hsent as [Hin | Hin].
    - rewrite checkAndResetTimer_sent in Hin.
      destruct (_ && _); simpl in Hin; [| done].
      destruct Hin as [[= <-] | []]. by exists cur.
    - unfold prepareSleep in Hin. destruct connected'; simpl in Hin; [| done].
      destruct Hin as [[= <-] | [H | []]]; [by exists false | discriminate]. }
  destruct Hshape as [detected ->]. exists detected. split; [reflexivity |].
  split.
  - intros deserializeJson.
    rewrite (handle_text deserializeJson c fb io (pirMessage detected)
               Hav Hheap Hmsg).
    by destruct detected.
  - rewrite (handle_text RefJson.deserializeJson c fb io (pirMessage detected)
               Hav Hheap Hmsg).
    destruct detected; reflexivity.
Qed.

(** ** The statements at sample inputs *)

(** C1 at a frame tagged 2 on a slot with identity 1. *)
Lemma C1_witness :
  exists fb',
    handleWebSocketMessage RefJson.deserializeJson camera1 smallBuffer
      (readyInput (BinaryMessage (taggedFrame "002"%byte)))
    = (true,
       mkCameraClient (client camera1) (frameTag (taggedFrame "002"%byte))
         (lastActivity camera1),
       fb',
       [textAll (statusMsg (cameraId camera1) "disconnected");
        textAll (statusMsg (frameTag (taggedFrame "002"%byte)) "connected")]
       ++ map binaryAll (framePieces (taggedFrame "002"%byte))).
Proof.
  apply (C1_identity_change_status_events RefJson.deserializeJson camera1
           smallBuffer (readyInput (BinaryMessage (taggedFrame "002"%byte)))
           (taggedFrame "002"%byte) eq_refl).
  - reflexivity.
  - vm_compute. discriminate.
  - split; [reflexivity | vm_compute; discriminate].
  - right. reflexivity.
  - vm_compute. discriminate.
Defined.

(** C1 as stated fails on a slot that has no identity yet: the frame
    tagged 1 makes the server send a "disconnected" status for camera
    -1 before the "connected" status, where the claim has the
    "connected" status alone.  It also fails on a frame above
    [MAX_FRAME_SIZE]: tagged 2 on a slot with identity 1, it causes no
    status at all. *)
Lemma C1_counterexample_unassigned_slot :
  let sent :=
    snd (handleWebSocketMessage RefJson.deserializeJson unassigned smallBuffer
           (readyInput (BinaryMessage (taggedFrame "001"%byte)))) in
  sent = [textAll (statusMsg (-1) "disconnected");
          textAll (statusMsg 1 "connected");
          binaryAll (taggedFrame "001"%byte)]
  /\ List.filter isText sent <> claimedStatusEvents (cameraId unassigned) 1
  /\ frameTag (flatFrame (Z.to_nat 16385) "002"%byte) = 2
  /\ snd (handleWebSocketMessage RefJson.deserializeJson camera1 smallBuffer
            (readyInput
               (BinaryMessage (flatFrame (Z.to_nat 16385) "002"%byte))))
     = [].
Proof.
  repeat split; vm_compute; (reflexivity || discriminate).
Qed.

(** C2 at a motion message that names camera 2, on a slot with
    identity 1, and at the same message naming camera 1. *)
Lemma C2_witness :
  let retagged :=
    setMember (RefJson.deserializeJson (spoofedMotionMessage 2)) "camera"
      (JInt (cameraId camera1)) in
  handleWebSocketMessage RefJson.deserializeJson camera1 smallBuffer
    (readyInput (TextMessage (spoofedMotionMessage 2)))
  = (true, camera1, smallBuffer, [textAll (serializeJson retagged)])
  /\ getMember (RefJson.deserializeJson (serializeJson retagged)) "camera"
     = Some (JInt 1)
  /\ handleWebSocketMessage RefJson.deserializeJson camera1 smallBuffer
       (mkSlotInput true 60000 (TextMessage (spoofedMotionMessage 1)))
     = handleWebSocketMessage RefJson.deserializeJson camera1 smallBuffer
         (readyInput (TextMessage (spoofedMotionMessage 2)))
  /\ handleWebSocketMessage RefJson.deserializeJson camera1 smallBuffer
       (readyInput (TextMessage (spoofedMotionMessage 2)))
     = (true, camera1, smallBuffer,
        [textAll
           (serializeJson
              (JObject
                 [("type"%string, JString "motion");
                  ("camera"%string, JInt 1);
                  ("detected"%string, JBool true)]))]).
Proof.
  pose (sent := [("type"%string, JString "motion");
                 ("camera"%string, JInt 2);
                 ("detected"%string, JBool true)]).
  pose (kept := [("type"%string, JString "motion");
                 ("camera"%string, JInt 1);
                 ("detected"%string, JBool true)]).
  assert (Hmotion : 0 <= indexOf (spoofedMotionMessage 2) motionPattern)
    by (vm_compute; discriminate).
  assert (Hheap : MAX_FRAME_SIZE + 1024
                  <= freeHeap
                       (readyInput (TextMessage (spoofedMotionMessage 2))))
    by (vm_compute; discriminate).
  destruct (C2_motion_broadcast_reads_back_slot_identity
              RefJson.deserializeJson camera1 smallBuffer
              (readyInput (TextMessage (spoofedMotionMessage 2)))
              (spoofedMotionMessage 2) eq_refl eq_refl Hheap Hmotion)
    as (Hsent & Hback & Hsame & Htext).
  split; [exact Hsent |]. split; [| split].
  - apply (Hback sent); [vm_compute; reflexivity | simpl; tauto].
  - apply (Hsame (spoofedMotionMessage 1) sent kept).
    + vm_compute. reflexivity.
    + vm_compute. reflexivity.
    + simpl. repeat split.
    + vm_compute. discriminate.
  - apply (Htext sent kept).
    + vm_compute. reflexivity.
    + simpl. tauto.
    + simpl. tauto.
    + simpl. repeat split.
    + vm_compute. discriminate.
Defined.

(** C2 as stated fails on two messages of the motion-event shape that
    differ only in the value of their [camera] member: the first has a
    space after each colon, so it does not hold the literal
    ["type":"motion"] and nothing is broadcast; the second holds the
    literal inside the value of [camera] and is broadcast, re-tagged with
    the identity of the slot. *)
Lemma C2_counterexample_spaced_motion_message :
  motionEventShape spacedMotionMessage = true
  /\ motionEventShape nestedMotionMessage = true
  /\ RefJson.deserializeJson spacedMotionMessage
     = JObject [("type"%string, JString "motion");
                ("detected"%string, JBool true);
                ("camera"%string, JInt 1)]
  /\ RefJson.deserializeJson nestedMotionMessage
     = JObject [("type"%string, JString "motion");
                ("detected"%string, JBool true);
                ("camera"%string,
                 JObject [("type"%string, JString "motion")])]
  /\ sameExceptCamera
       [("type"%string, JString "motion"); ("detected"%string, JBool true);
        ("camera"%string, JInt 1)]
       [("type"%string, JString "motion"); ("detected"%string, JBool true);
        ("camera"%string, JObject [("type"%string, JString "motion")])]
  /\ handleWebSocketMessage RefJson.deserializeJson camera1 smallBuffer
       (readyInput (TextMessage spacedMotionMessage))
     = (true, camera1, smallBuffer, [])
  /\ handleWebSocketMessage RefJson.deserializeJson camera1 smallBuffer
       (readyInput (TextMessage nestedMotionMessage))
     = (true, camera1, smallBuffer,
        [textAll ("{" ++ quoted "type" ++ ":" ++ quoted "motion" ++ ","
                    ++ quoted "detected" ++ ":true," ++ quoted "camera"
                    ++ ":1}")%string]).
Proof.
  repeat split; vm_compute; reflexivity.
Qed.

(** C3 after two admissions: the third is refused. *)
Lemma C3_witness :
  let st :=
    fst (run RefJson.deserializeJson initialState
           [Admit 1%nat 60000 1000; Admit 2%nat 60000 2000]) in
  addCameraClient st 3%nat 60000 3000 = (false, st).
Proof.
  intros st.
  destruct (C3_admission_bounded_by_capacity RefJson.deserializeJson
              [Admit 1%nat 60000 1000; Admit 2%nat 60000 2000])
    as (_ & _ & Hfull & _).
  apply Hfull. vm_compute. reflexivity.
Defined.

(** C4 at seven low samples: the cleanup runs on the sixth. *)
Lemma C4_witness :
  sampleLog initialState lowMemoryCalls !! 5%nat = Some (5000, true)
  /\ (5 <= 5)%nat
  /\ forall j : nat, (5 - 5 <= j <= 5)%nat ->
       exists hj fj,
         sampleLog initialState lowMemoryCalls !! j = Some (hj, fj)
         /\ hj < 10000 /\ ((j < 5)%nat -> fj = false).
Proof.
  split; [vm_compute; reflexivity |].
  destruct C4_forced_reset_after_sustained_low_memory as (Hfire & _).
  apply (Hfire initialState lowMemoryCalls 5%nat 5000).
  - reflexivity.
  - vm_compute. reflexivity.
Defined.

(** C5 (the code departs from it).  Slot 0 holds a client with
    identity 1 and five samples in a row have been low.  In the next
    pass [monitorMemory] takes the sixth low sample and empties every
    slot; the pass sends nothing, so no "disconnected" status for camera
    1 reaches the subscribers, whereas [removeCameraClient] on the same
    state sends one. *)
Theorem C5_forced_reset_sends_no_disconnect :
  let st := fst (run RefJson.deserializeJson initialState pressureOps) in
  camClients st = [Some (mkCameraClient 7%nat 1 1500); None]
  /\ lowMemCount st = 5
  /\ forcedReset st 8000 5000 = true
  /\ camClients (fst (loop RefJson.deserializeJson st (quietPass 8000 5000)))
     = [None; None]
  /\ snd (loop RefJson.deserializeJson st (quietPass 8000 5000)) = []
  /\ snd (removeCameraClient st 0) = [textAll (statusMsg 1 "disconnected")].
Proof.
  repeat split; vm_compute; reflexivity.
Qed.


(** C7 at a frame of 10000 bytes: two chunks. *)
Lemma C7_witness :
  exists c' fb' status chunks,
    handleWebSocketMessage RefJson.deserializeJson camera1 smallBuffer
      (readyInput (BinaryMessage (flatFrame (Z.to_nat 10000) "001"%byte)))
    = (true, c', fb', status ++ map binaryAll chunks)
    /\ Z.of_nat (length chunks) = 2
    /\ concat chunks = flatFrame (Z.to_nat 10000) "001"%byte.
Proof.
  destruct (C7_frame_forwarded_in_ordered_chunks RefJson.deserializeJson
              camera1 smallBuffer
              (readyInput
                 (BinaryMessage (flatFrame (Z.to_nat 10000) "001"%byte)))
              (flatFrame (Z.to_nat 10000) "001"%byte))
    as (c' & fb' & status & chunks & Hcall & _ & Hcount & _ & _ & Hglue).
  - reflexivity.
  - vm_compute. discriminate.
  - reflexivity.
  - split; [vm_compute; reflexivity | vm_compute; discriminate].
  - exists c', fb', status, chunks.
    split; [exact Hcall |]. split; [| exact Hglue].
    rewrite Hcount. vm_compute. reflexivity.
Defined.

(** C8 at the eviction of the one admitted client. *)
Lemma C8_witness :
  removeCameraClient oneClientState 0
  = (setClients oneClientState (<[0%nat := None]> (camClients oneClientState))
       (activeClients oneClientState - 1),
     [textAll (statusMsg (cameraId (mkCameraClient 7%nat (-1) 1000))
                 "disconnected")]).
Proof.
  apply (C8_eviction_notifies_with_slot_identity oneClientState 0%nat).
  - split; vm_compute; reflexivity.
  - vm_compute. reflexivity.
Defined.

(** C8 as stated fails on an occupied slot that never got an
    identity: evicting it sends a "disconnected" status for camera -1. *)
Lemma C8_counterexample_unassigned_eviction :
  camClients oneClientState !! 0%nat
  = Some (Some (mkCameraClient 7%nat (-1) 1000))
  /\ snd (removeCameraClient oneClientState 0)
     = [textAll (statusMsg (-1) "disconnected")]
  /\ snd (removeCameraClient oneClientState 0) <> [].
Proof.
  repeat split; vm_compute; (reflexivity || discriminate).
Qed.

(** C9 at the greeting of the camera sketch: accepted, nothing sent,
    and the turn of the slot stamps the time and keeps the client. *)
Lemma C9_witness :
  handleWebSocketMessage RefJson.deserializeJson
    (mkCameraClient 7%nat (-1) 1000) smallBuffer
    (readyInput (TextMessage reconnectMessage))
  = (true, mkCameraClient 7%nat (-1) 1000, smallBuffer, [])
  /\ serviceSlot RefJson.deserializeJson oneClientState 0 9000
       (readyInput (TextMessage reconnectMessage))
     = (setClients oneClientState
          (<[0%nat := Some (mkCameraClient 7%nat (-1) 9000)]>
             (camClients oneClientState))
          (activeClients oneClientState),
        []).
Proof.
  destruct (C9_text_without_motion_type_not_forwarded RefJson.deserializeJson
              (mkCameraClient 7%nat (-1) 1000) smallBuffer
              (readyInput (TextMessage reconnectMessage))
              reconnectMessage oneClientState 0%nat 9000 eq_refl)
    as [Hcall Hturn].
  - reflexivity.
  - vm_compute. discriminate.
  - vm_compute. reflexivity.
  - split; [exact Hcall |]. apply Hturn. vm_compute. reflexivity.
Defined.

(** C9 as stated fails on a text that has the motion type and no
    [detected] member: it is not of the shape
    [{type:"motion", detected: bool}], and it is broadcast all the same,
    re-tagged with the identity of the slot. *)
Lemma C9_counterexample_motion_without_detected :
  motionEventShape bareMotionMessage = false
  /\ handleWebSocketMessage RefJson.deserializeJson unassigned smallBuffer
       (readyInput (TextMessage bareMotionMessage))
     = (true, unassigned, smallBuffer,
        [textAll ("{" ++ quoted "type" ++ ":" ++ quoted "motion" ++ ","
                    ++ quoted "camera" ++ ":-1}")%string]).
Proof.
  split; vm_compute; reflexivity.
Qed.

(** C10 at the motion message of the camera sketch. *)
Lemma C10_witness :
  handleWebSocketMessage RefJson.deserializeJson unassigned smallBuffer
    (readyInput (TextMessage motionMessage))
  = (true, unassigned, smallBuffer,
     [textAll
        (serializeJson
           (setMember (RefJson.deserializeJson motionMessage) "camera"
              (JInt (-1))))])
  /\ serializeJson
       (setMember (RefJson.deserializeJson motionMessage) "camera" (JInt (-1)))
     = ("{" ++ quoted "type" ++ ":" ++ quoted "motion" ++ ","
          ++ quoted "detected" ++ ":true," ++ quoted "camera" ++ ":-1}")%string.
Proof.
  destruct (C10_unset_identity_is_broadcast RefJson.deserializeJson)
    as (_ & _ & Hsent & _).
  split; [| vm_compute; reflexivity].
  apply (Hsent unassigned smallBuffer
           (readyInput (TextMessage motionMessage)) motionMessage).
  - reflexivity.
  - reflexivity.
  - vm_compute. discriminate.
  - reflexivity.
  - vm_compute. discriminate.
Defined.

(** ** The further statements at sample inputs *)

(** X1 at a table with one client: a second admission succeeds. *)
Lemma X1_witness :
  fst (addCameraClient oneClientState 8%nat 60000 2000) = true.
Proof.
  destruct (X1_admission_succeeds_iff oneClientState 8%nat 60000 2000)
    as [Hiff _].
  - split; vm_compute; reflexivity.
  - apply Hiff. split; [vm_compute; lia | vm_compute; discriminate].
Defined.

(** X2 at the first admission. *)
Lemma X2_witness :
  exists i : nat,
    camClients oneClientState !! i
    = Some (Some (mkCameraClient 7%nat (-1) 1000))
    /\ removeCameraClient oneClientState i
       = (initialState, [textAll (statusMsg (-1) "disconnected")]).
Proof.
  apply (X2_admit_then_evict_restores initialState 7%nat 60000 1000
           oneClientState).
  - split; vm_compute; reflexivity.
  - vm_compute. reflexivity.
Defined.

(** X3 at a silent client, 11 seconds after its admission. *)
Lemma X3_witness :
  serviceSlot RefJson.deserializeJson oneClientState 0 12000 silentInput
  = (setClients oneClientState (<[0%nat := None]> (camClients oneClientState))
       (activeClients oneClientState - 1),
     [textAll (statusMsg (cameraId (mkCameraClient 7%nat (-1) 1000))
                 "disconnected")]).
Proof.
  apply (X3_stale_slot_evicted_once RefJson.deserializeJson oneClientState
           0%nat (mkCameraClient 7%nat (-1) 1000) 12000 silentInput).
  - split; vm_compute; reflexivity.
  - vm_compute. reflexivity.
  - left. reflexivity.
  - vm_compute. reflexivity.
Defined.


(** X5 at the eviction of slot 0: slot 1 is untouched. *)
Lemma X5_witness :
  camClients
    (fst (serviceSlot RefJson.deserializeJson oneClientState 0 12000
            silentInput)) !! 1%nat
  = camClients oneClientState !! 1%nat.
Proof.
  apply (X5_turn_leaves_other_slots RefJson.deserializeJson oneClientState
           0%nat 1%nat 12000 silentInput).
  lia.
Defined.

(** X6 at a frame tagged 1 on a slot with identity 1. *)
Lemma X6_witness :
  handleWebSocketMessage RefJson.deserializeJson camera1 smallBuffer
    (readyInput (BinaryMessage (taggedFrame "001"%byte)))
  = (true, camera1, bufferWith smallBuffer (taggedFrame "001"%byte),
     map binaryAll (framePieces (taggedFrame "001"%byte))).
Proof.
  apply (X6_frame_without_new_identity RefJson.deserializeJson camera1
           smallBuffer (readyInput (BinaryMessage (taggedFrame "001"%byte)))
           (taggedFrame "001"%byte)).
  - repeat split; [vm_compute; discriminate | vm_compute; discriminate].
  - right; right. reflexivity.
Defined.

(** X7 at a frame of 20 bytes copied into a buffer of 32. *)
Lemma X7_witness :
  StaticFrameBuffer.length
    (snd (fst (handleWebSocketMessage RefJson.deserializeJson camera1
                 smallBuffer
                 (readyInput (BinaryMessage (taggedFrame "002"%byte))))))
  = Z.of_nat (length (taggedFrame "002"%byte))
  /\ take (length (taggedFrame "002"%byte))
       (StaticFrameBuffer.data
          (snd (fst (handleWebSocketMessage RefJson.deserializeJson camera1
                       smallBuffer
                       (readyInput (BinaryMessage (taggedFrame "002"%byte)))))))
     = taggedFrame "002"%byte.
Proof.
  destruct (X7_buffer_holds_last_frame RefJson.deserializeJson camera1
              smallBuffer (readyInput (BinaryMessage (taggedFrame "002"%byte)))
              (taggedFrame "002"%byte))
    as (Hlen & Htake & _).
  - repeat split; [vm_compute; discriminate | vm_compute; discriminate].
  - split; [exact Hlen | exact Htake].
Defined.

(** X9 at two frames tagged 2 on a slot that had identity 1. *)
Lemma X9_witness :
  cameraId
    (snd (fst (fst (handleWebSocketMessage RefJson.deserializeJson camera1
                      smallBuffer
                      (readyInput (BinaryMessage (taggedFrame "002"%byte)))))))
  = frameTag (taggedFrame "002"%byte).
Proof.
  apply (X9_same_tag_again_sends_no_status RefJson.deserializeJson camera1
           smallBuffer
           (readyInput (BinaryMessage (taggedFrame "002"%byte)))
           (taggedFrame "002"%byte)
           (readyInput (BinaryMessage (taggedFrame "002"%byte)))
           (taggedFrame "002"%byte)).
  - repeat split; [vm_compute; discriminate | vm_compute; discriminate].
  - repeat split; [vm_compute; discriminate | vm_compute; discriminate].
  - vm_compute. reflexivity.
  - right. reflexivity.
  - reflexivity.
Defined.

(** X10 at the client that the sample run leaves in slot 0. *)
Lemma X10_witness :
  cameraId (mkCameraClient 7%nat 1 1500) = -1
  \/ cameraId (mkCameraClient 7%nat 1 1500) = 1
  \/ cameraId (mkCameraClient 7%nat 1 1500) = 2.
Proof.
  destruct (X10_buffer_and_identities_invariant RefJson.deserializeJson
              pressureOps) as (_ & _ & Hids).
  apply (Hids 0%nat). vm_compute. reflexivity.
Defined.

(** X11 at a second call half a second after the first sample. *)
Lemma X11_witness :
  monitorMemory (monitorMemory initialState 2000 5000) (wrap32 (2000 + 500))
    60000
  = monitorMemory initialState 2000 5000.
Proof.
  apply (X11_one_sample_per_second initialState 2000 5000 500 60000).
  - vm_compute. reflexivity.
  - split; [vm_compute; discriminate | vm_compute; reflexivity].
  - vm_compute. discriminate.
Defined.

(** X12 at five polls: three changes, three messages. *)
Lemma X12_witness :
  snd (pollSensor cameraAwake sensorReadings)
  = map (fun v => sendText (pirMessage v)) [true; false; true].
Proof.
  apply (X12_motion_reported_on_change sensorReadings cameraAwake).
  repeat constructor.
Defined.

(** X13 at a rising edge 40 seconds after the start: the timer
    restarts and the camera stays awake. *)
Lemma X13_witness :
  exists sent,
    cameraLoop cameraAwake cameraPass
    = NextPass (mkCameraState true (nowAtCheck cameraPass)) sent.
Proof.
  apply (X13_sleep_timer cameraAwake cameraPass).
  - reflexivity.
  - reflexivity.
  - split; [vm_compute; discriminate | vm_compute; reflexivity].
Defined.

(** X14 at the frame of that pass, arriving on a slot without
    identity. *)
Lemma X14_witness :
  frameTag (<[12%nat := "001"%byte]> (buf capturedFrame)) = 1
  /\ handleWebSocketMessage RefJson.deserializeJson unassigned smallBuffer
       (readyInput
          (BinaryMessage (<[12%nat := "001"%byte]> (buf capturedFrame))))
     = (true, mkCameraClient (client unassigned) 1 (lastActivity unassigned),
        bufferWith smallBuffer (<[12%nat := "001"%byte]> (buf capturedFrame)),
        (if cameraId unassigned =? 1 then []
         else [textAll (statusMsg (cameraId unassigned) "disconnected");
               textAll (statusMsg 1 "connected")])
        ++ map binaryAll
             (framePieces (<[12%nat := "001"%byte]> (buf capturedFrame)))).
Proof.
  apply (X14_camera_frame_gives_identity_one RefJson.deserializeJson
           cameraAwake cameraPass).
  - vm_compute. right. left. reflexivity.
  - repeat split; [vm_compute; discriminate | vm_compute; discriminate].
  - vm_compute. reflexivity.
Defined.

(** X15 at the message of a rising edge, arriving on a slot with
    identity 1. *)
Lemma X15_witness :
  exists detected : bool,
    pirMessage true = pirMessage detected
    /\ (forall deserializeJson,
          handleWebSocketMessage deserializeJson camera1 smallBuffer
            (readyInput (TextMessage (pirMessage true)))
          = (true, camera1, smallBuffer,
             [textAll
                (serializeJson
                   (setMember (deserializeJson (pirMessage true)) "camera"
                      (JInt (cameraId camera1))))]))
    /\ handleWebSocketMessage RefJson.deserializeJson camera1 smallBuffer
         (readyInput (TextMessage (pirMessage true)))
       = (true, camera1, smallBuffer,
          [textAll
             ("{" ++ quoted "type" ++ ":" ++ quoted "motion" ++ ","
                ++ quoted "detected" ++ ":"
                ++ (if detected then "true" else "false") ++ ","
                ++ quoted "camera" ++ ":" ++ String_of_int (cameraId camera1)
                ++ "}")%string]).
Proof.
  apply (X15_camera_motion_message_is_forwarded cameraAwake true true 100
           false (pirMessage true) camera1 smallBuffer
           (readyInput (TextMessage (pirMessage true)))).
  - left. reflexivity.
  - reflexivity.
  - vm_compute. discriminate.
  - reflexivity.
Defined.

(** X16 at the frame forwarded in the sample run. *)
Lemma X16_witness :
  (0 < length (taggedFrame "001"%byte) <= Z.to_nat CHUNK_SIZE)%nat.
Proof.
  apply (X16_every_binary_send_is_one_chunk RefJson.deserializeJson
           pressureOps initialState (taggedFrame "001"%byte)).
  vm_compute. right. right. left. reflexivity.
Defined.

(** X17 at a pass that admits a second client. *)
Lemma X17_witness :
  (occupied
     (camClients
        (fst (loop RefJson.deserializeJson oneClientState (admittingPass 2000))))
   <= occupied (camClients oneClientState)
      + (if poll (admittingPass 2000) && acceptedAvailable (admittingPass 2000)
         then 1 else 0))%nat.
Proof.
  apply (X17_pass_admits_at_most_one RefJson.deserializeJson oneClientState
           (admittingPass 2000)).
  split; vm_compute; reflexivity.
Defined.
